(** * exif-mcp: byte-source resolution, segment options and tool handlers

    A shallow embedding of [src/tools/segments.ts], [src/tools/loaders.ts]
    and the tool callbacks of [src/tools/index.ts], with the properties the
    specification states about them.

    Conventions.
    - A JavaScript string is a [string]; every character stands for one
      UTF-16 code unit, so [String.length] is the [.length] of the source.
    - A Buffer / Uint8Array is a [list byte].
    - An optional argument or optional object field is an [option]; [None]
      is [undefined] (argument) or "key not present" (field).
    - [await] is sequential here: a promise that rejects is a [Throw], one
      that resolves is a [Return]. *)

From Stdlib Require Import Bool List ZArith NArith QArith Lia.
From Stdlib Require Import Strings.String Strings.Ascii Strings.Byte.
From Stdlib Require Import Numbers.DecimalString.
From Stdlib Require Import Sorting.Permutation.
Import ListNotations.

Local Open Scope list_scope.
Local Open Scope string_scope.

(* ================================================================== *)
(** ** Segment option mapper ([src/tools/segments.ts]) *)
(* ================================================================== *)

Module Segments.

(** [type SegmentType = 'EXIF' | 'GPS' | 'XMP' | 'ICC' | 'IPTC' | 'JFIF' | 'IHDR'] *)
Inductive SegmentType : Type :=
| EXIF | GPS | XMP | ICC | IPTC | JFIF | IHDR.

Definition SegmentType_eq_dec (a b : SegmentType) : {a = b} + {a <> b}.
Proof. decide equality. Defined.

(** [interface ExifrOptions]: the six segment flags are written by every
    builder, [multiSegment] and [pick] are optional keys. *)
Record ExifrOptions : Type := mkOptions {
  tiff : bool;
  xmp : bool;
  icc : bool;
  iptc : bool;
  jfif : bool;
  ihdr : bool;
  multiSegment : option bool;
  pick : option (list string)
}.

Definition all_enabled : ExifrOptions :=
  mkOptions true true true true true true None None.

Definition all_disabled : ExifrOptions :=
  mkOptions false false false false false false None None.

Definition set_tiff (o : ExifrOptions) : ExifrOptions :=
  mkOptions true (xmp o) (icc o) (iptc o) (jfif o) (ihdr o) (multiSegment o) (pick o).
Definition set_xmp (o : ExifrOptions) : ExifrOptions :=
  mkOptions (tiff o) true (icc o) (iptc o) (jfif o) (ihdr o) (multiSegment o) (pick o).
Definition set_icc (o : ExifrOptions) : ExifrOptions :=
  mkOptions (tiff o) (xmp o) true (iptc o) (jfif o) (ihdr o) (multiSegment o) (pick o).
Definition set_iptc (o : ExifrOptions) : ExifrOptions :=
  mkOptions (tiff o) (xmp o) (icc o) true (jfif o) (ihdr o) (multiSegment o) (pick o).
Definition set_jfif (o : ExifrOptions) : ExifrOptions :=
  mkOptions (tiff o) (xmp o) (icc o) (iptc o) true (ihdr o) (multiSegment o) (pick o).
Definition set_ihdr (o : ExifrOptions) : ExifrOptions :=
  mkOptions (tiff o) (xmp o) (icc o) (iptc o) (jfif o) true (multiSegment o) (pick o).

(** The body of the [forEach] callback: one assignment on the shared
    [options] object, selected by the [switch]. *)
Definition enable (options : ExifrOptions) (segment : SegmentType) : ExifrOptions :=
  match segment with
  | EXIF | GPS => set_tiff options
  | XMP => set_xmp options
  | ICC => set_icc options
  | IPTC => set_iptc options
  | JFIF => set_jfif options
  | IHDR => set_ihdr options
  end.

(** [buildOptions(segments?)]: [!segments || segments.length === 0] returns
    the all-true literal; otherwise the all-false object is threaded through
    the [forEach] from left to right. *)
Definition buildOptions (segments : option (list SegmentType)) : ExifrOptions :=
  match segments with
  | None => all_enabled
  | Some [] => all_enabled
  | Some segs => fold_left enable segs all_disabled
  end.

(** [buildExifOptions(pick?)]: the spread [...(pick ? { pick } : {})] adds the
    key when [pick] is truthy; every array, the empty one included, is. *)
Definition buildExifOptions (pick : option (list string)) : ExifrOptions :=
  mkOptions true false false false false false None
    (match pick with
     | Some p => Some p
     | None => None
     end).

(** [buildXmpOptions(extended?)]: [multiSegment: extended ?? false]. *)
Definition buildXmpOptions (extended : option bool) : ExifrOptions :=
  mkOptions false true false false false false
    (Some (match extended with Some b => b | None => false end)) None.

(** The argument type of [buildSegmentOptions]. *)
Inductive SingleSegment : Type := SegICC | SegIPTC | SegJFIF | SegIHDR.

(** The segment's name as the source spells it. *)
Definition segment_name (s : SingleSegment) : string :=
  match s with
  | SegICC => "ICC" | SegIPTC => "IPTC" | SegJFIF => "JFIF" | SegIHDR => "IHDR"
  end.

(** [segment.toLowerCase()] on the four names. *)
Definition segment_key (s : SingleSegment) : string :=
  match s with
  | SegICC => "icc" | SegIPTC => "iptc" | SegJFIF => "jfif" | SegIHDR => "ihdr"
  end.

(** [buildSegmentOptions(segment)]: [options[key] = true] on the all-false
    object. *)
Definition buildSegmentOptions (segment : SingleSegment) : ExifrOptions :=
  match segment with
  | SegICC => set_icc all_disabled
  | SegIPTC => set_iptc all_disabled
  | SegJFIF => set_jfif all_disabled
  | SegIHDR => set_ihdr all_disabled
  end.

(** Whether segment [s] occurs in the request. *)
Definition requested (segs : list SegmentType) (s : SegmentType) : bool :=
  if in_dec SegmentType_eq_dec s segs then true else false.

(** The flag record in which only the TIFF flag is on. *)
Definition only_tiff : ExifrOptions :=
  mkOptions true false false false false false None None.

(** The full request of the specification's example. *)
Definition every_segment : list SegmentType :=
  [EXIF; GPS; XMP; ICC; IPTC; JFIF; IHDR].

End Segments.

(* ================================================================== *)
(** ** Completions: what an awaited call ends in *)
(* ================================================================== *)

(** A thrown value. The [catch] blocks of the source only ask
    [error instanceof Error]; an [Error] is kept as its [message], any other
    thrown value as the string [String(error)] gives for it. *)
Inductive Thrown : Type :=
| ThrownError (message : string)
| ThrownOther (rendering : string).

Inductive Completion (A : Type) : Type :=
| Return (a : A)
| Throw (e : Thrown).
Arguments Return {A} a.
Arguments Throw {A} e.

Definition bind {A B : Type} (c : Completion A) (k : A -> Completion B) : Completion B :=
  match c with
  | Return a => k a
  | Throw e => Throw e
  end.

Notation "x <- c ;; k" := (bind c (fun x => k))
  (at level 61, c at next level, right associativity).

(** [error instanceof Error ? error.message : String(error)] *)
Definition error_text (e : Thrown) : string :=
  match e with
  | ThrownError m => m
  | ThrownOther r => r
  end.

(** The double-quote character (code 34) as a one-character string, for the
    messages that quote the kind. *)
Definition dquote : string := String "034"%char EmptyString.

(* ================================================================== *)
(** ** Byte source resolver ([src/tools/loaders.ts]) *)
(* ================================================================== *)

Module Loaders.

(** [kind: 'path' | 'url' | 'base64' | 'buffer']; [KOther] is a kind outside
    the declared union, which only the [default] branch sees. *)
Inductive Kind : Type :=
| KPath | KUrl | KBase64 | KBuffer
| KOther (name : string).

(** [interface ImageSourceType] ([src/types/image.ts]): the tag and four
    optional string fields. *)
Record ImageSourceType : Type := mkSource {
  kind : Kind;
  path : option string;
  url : option string;
  data : option string;
  buffer : option string
}.

(** The part of a fetch [Response] that [loadImage] reads. *)
Record Response : Type := mkFetchResponse {
  ok : bool;
  status : N;
  statusText : string;
  arrayBuffer : Completion (list byte)
}.

(** What [loadImage] calls outside the repository: [fs.promises.readFile],
    [fileURLToPath], the global [fetch], and the base64 decoding of
    [Buffer.from(string, 'base64')] (which never throws on a string). *)
Record Platform : Type := mkPlatform {
  readFile : string -> Completion (list byte);
  fileURLToPath : string -> Completion string;
  fetch : string -> Completion Response;
  base64_decode : string -> list byte
}.

(** [`${n}`] for a non-negative integer. *)
Definition number_to_string (n : N) : string :=
  NilEmpty.string_of_uint (N.to_uint n).

(** The message of the [TypeError] Node raises for
    [Buffer.from(undefined, 'base64')]. *)
Definition buffer_from_undefined_message : string :=
  "The first argument must be of type string or an instance of Buffer, ArrayBuffer, or Array or an Array-like Object. Received undefined".

(** [Buffer.from(x, 'base64')], where [x] may be [undefined]. *)
Definition Buffer_from_base64 (P : Platform) (x : option string) : Completion (list byte) :=
  match x with
  | Some s => Return (base64_decode P s)
  | None => Throw (ThrownError buffer_from_undefined_message)
  end.

(** [s.split(sep)] for a one-character separator. *)
Fixpoint split (sep : ascii) (s : string) : list string :=
  match s with
  | EmptyString => [EmptyString]
  | String c rest =>
      if Ascii.eqb c sep then EmptyString :: split sep rest
      else match split sep rest with
           | piece :: pieces => String c piece :: pieces
           | [] => [String c EmptyString]
           end
  end.

(** [if (!field) throw new Error(message)]: an optional string field is
    falsy when it is [undefined] or the empty string. *)
Definition required (field : option string) (message : string) : Completion string :=
  match field with
  | None => Throw (ThrownError message)
  | Some s => if (s =? "")%string then Throw (ThrownError message) else Return s
  end.

Definition path_required_message : string :=
  "Path is required for kind=" ++ dquote ++ "path" ++ dquote.
Definition url_required_message : string :=
  "URL is required for kind=" ++ dquote ++ "url" ++ dquote.
Definition data_required_message : string :=
  "Data is required for kind=" ++ dquote ++ "base64" ++ dquote.
Definition buffer_required_message : string :=
  "Buffer is required for kind=" ++ dquote ++ "buffer" ++ dquote.
Definition payload_too_large_message : string :=
  "PayloadTooLarge: Base64 data exceeds 30MB limit".

(** [`Failed to fetch URL: ${response.status} ${response.statusText}`] *)
Definition fetch_failed_message (r : Response) : string :=
  "Failed to fetch URL: " ++ number_to_string (status r) ++ " " ++ statusText r.

(** The size ceiling of the [base64] branch. *)
Definition size_limit : Z := 40000000.

(** The [switch] inside the [try] block. *)
Definition resolve (P : Platform) (src : ImageSourceType) : Completion (list byte) :=
  match kind src with
  | KPath =>
      p <- required (path src) path_required_message ;;
      readFile P p
  | KUrl =>
      u <- required (url src) url_required_message ;;
      if prefix "file://" u then
        filePath <- fileURLToPath P u ;;
        readFile P filePath
      else
        response <- fetch P u ;;
        if negb (ok response) then Throw (ThrownError (fetch_failed_message response))
        else arrayBuffer response
  | KBase64 =>
      d <- required (data src) data_required_message ;;
      if (size_limit <? Z.of_nat (String.length d))%Z then
        Throw (ThrownError payload_too_large_message)
      else if prefix "data:" d then
        Buffer_from_base64 P (nth_error (split ","%char d) 1)
      else
        Buffer_from_base64 P (Some d)
  | KBuffer =>
      b <- required (buffer src) buffer_required_message ;;
      Buffer_from_base64 P (Some b)
  | KOther name =>
      Throw (ThrownError ("Unsupported image source kind: " ++ name))
  end.

Definition load_failure_prefix : string := "Failed to load image: ".

(** [loadImage(src)]: the [catch] rewraps every [Error] and rethrows
    anything else as it is. *)
Definition loadImage (P : Platform) (src : ImageSourceType) : Completion (list byte) :=
  match resolve P src with
  | Return bytes => Return bytes
  | Throw (ThrownError message) => Throw (ThrownError (load_failure_prefix ++ message))
  | Throw (ThrownOther r) => Throw (ThrownOther r)
  end.

(** Descriptors with exactly the field of their tag. *)
Definition fromPath (p : string) : ImageSourceType := mkSource KPath (Some p) None None None.
Definition fromUrl (u : string) : ImageSourceType := mkSource KUrl None (Some u) None None.
Definition fromBase64 (d : string) : ImageSourceType := mkSource KBase64 None None (Some d) None.
Definition fromBuffer (b : string) : ImageSourceType := mkSource KBuffer None None None (Some b).

(** ['c'.repeat(n)] for [n >= 1], built without a unary count. *)
Definition repeat_char (c : ascii) (n : positive) : string :=
  Pos.iter (String c) EmptyString n.

(** The substring after the first occurrence of [sep], as the specification
    words the data-URI rule; [None] when [sep] does not occur. *)
Fixpoint after_first (sep : ascii) (s : string) : option string :=
  match s with
  | EmptyString => None
  | String c rest => if Ascii.eqb c sep then Some rest else after_first sep rest
  end.

(** The piece of [s] before the first [sep], i.e. [s.split(sep)[0]]. *)
Definition first_piece (sep : ascii) (s : string) : string :=
  hd EmptyString (split sep s).

(** A data URI whose payload itself holds a comma. *)
Definition two_comma_uri : string := "data:image/jpeg;base64,AAAA,BBBB".

(** [needle] occurs in [hay]. *)
Definition contains (needle hay : string) : Prop :=
  exists before after, hay = before ++ needle ++ after.

(** The platform itself rejects some call with an [Error] whose message is
    [m]. *)
Definition platform_says (P : Platform) (m : string) : Prop :=
  (exists p, readFile P p = Throw (ThrownError m))
  \/ (exists u, fileURLToPath P u = Throw (ThrownError m))
  \/ (exists u, fetch P u = Throw (ThrownError m))
  \/ (exists u r, fetch P u = Return r /\ arrayBuffer r = Throw (ThrownError m)).

(** The tag that opens the message of the size guard. *)
Definition payload_too_large_tag : string := "PayloadTooLarge".

(** The platform itself rejects some call with an [Error] whose message
    opens with [tag]. *)
Definition platform_says_tagged (P : Platform) (tag : string) : Prop :=
  exists m, prefix tag m = true /\ platform_says P m.

(** The message a caller sees when the size guard fires. *)
Definition payload_too_large_failure : string :=
  load_failure_prefix ++ payload_too_large_message.

End Loaders.

(* ================================================================== *)
(** ** Tool callbacks ([src/tools/index.ts]) *)
(* ================================================================== *)

Module Tools.
Import Segments Loaders.

(** A JavaScript number, as far as truthiness needs it. *)
Inductive JsNumber : Type :=
| NaN
| Infinite (negative : bool)
| Finite (q : Q).

(** The values the external parser may resolve to. An object is its list of
    own enumerable properties in insertion order. *)
#[warnings="-register-all"]
Inductive JsValue : Type :=
| JUndefined
| JNull
| JBool (b : bool)
| JNumber (n : JsNumber)
| JString (s : string)
| JBytes (bytes : list byte)
| JArray (items : list JsValue)
| JObject (props : list (string * JsValue)).

(** [!!v] *)
Definition truthy (v : JsValue) : bool :=
  match v with
  | JUndefined | JNull => false
  | JBool b => b
  | JNumber NaN => false
  | JNumber (Infinite _) => true
  | JNumber (Finite q) => negb (Qeq_bool q 0%Q)
  | JString s => negb (s =? "")%string
  | JBytes _ | JArray _ | JObject _ => true
  end.

Definition null_to_object_message : string :=
  "Cannot convert undefined or null to object".

(** [Object.keys(v).length] *)
Definition Object_keys_length (v : JsValue) : Completion nat :=
  match v with
  | JUndefined | JNull => Throw (ThrownError null_to_object_message)
  | JBool _ | JNumber _ => Return 0%nat
  | JString s => Return (String.length s)
  | JBytes b => Return (List.length b)
  | JArray items => Return (List.length items)
  | JObject props => Return (List.length props)
  end.

Fixpoint lookup (key : string) (props : list (string * JsValue)) : JsValue :=
  match props with
  | [] => JUndefined
  | (k, v) :: rest => if (k =? key)%string then v else lookup key rest
  end.

(** [v[key]] for one of the lower-case segment keys, which no string, array
    or typed array has as a property of its own. *)
Definition get (v : JsValue) (key : string) : Completion JsValue :=
  match v with
  | JUndefined | JNull =>
      Throw (ThrownError "Cannot read properties of undefined or null")
  | JObject props => Return (lookup key props)
  | _ => Return JUndefined
  end.

(** [a || b] *)
Definition js_or (a b : JsValue) : JsValue := if truthy a then a else b.

(** The exifr entry points the callbacks call. *)
Record Exifr : Type := mkExifr {
  parse : list byte -> ExifrOptions -> Completion JsValue;
  orientation : list byte -> Completion JsValue;
  rotation : list byte -> Completion JsValue;
  gps : list byte -> Completion JsValue;
  thumbnail : list byte -> Completion JsValue
}.

(** Everything outside the repository: the platform of [loadImage], exifr,
    [JSON.stringify(data, null, 2)] and
    [Buffer.from(thumbnail).toString('base64')]. *)
Record World : Type := mkWorld {
  platform : Platform;
  exifr : Exifr;
  JSON_stringify : JsValue -> string;
  to_base64 : JsValue -> Completion string
}.

(** One entry of [content]. *)
Record Content : Type := mkContent {
  type : string;
  text : string
}.

(** The response envelope; [isError] is a key only of error responses. *)
Record McpResponse : Type := mkResponse {
  content : list Content;
  isError : option bool
}.

(** [createSuccessResponse(data)] *)
Definition createSuccessResponse (W : World) (data : JsValue) : McpResponse :=
  mkResponse
    [ mkContent "text"
        (match data with
         | JString s => s
         | _ => JSON_stringify W data
         end) ]
    None.

(** [createErrorResponse(message)] *)
Definition createErrorResponse (message : string) : McpResponse :=
  mkResponse [ mkContent "text" message ] (Some true).

(** [try { ... } catch (error) { return createErrorResponse(prefix + ...) }] *)
Definition try_catch (prefix : string) (body : Completion McpResponse) : McpResponse :=
  match body with
  | Return r => r
  | Throw e => createErrorResponse (prefix ++ error_text e)
  end.

(** Tool 1: read-metadata *)
Definition readMetadataTool (W : World) (image : ImageSourceType)
    (segments : option (list SegmentType)) : McpResponse :=
  try_catch "Error reading metadata: "
    (buf <- loadImage (platform W) image ;;
     let opts := buildOptions segments in
     meta <- parse (exifr W) buf opts ;;
     if negb (truthy meta) then Return (createErrorResponse "No metadata found in image")
     else
       n <- Object_keys_length meta ;;
       if Nat.eqb n 0%nat then Return (createErrorResponse "No metadata found in image")
       else Return (createSuccessResponse W meta)).

(** Tool 2: read-exif *)
Definition readExifTool (W : World) (image : ImageSourceType)
    (pick : option (list string)) : McpResponse :=
  try_catch "Error reading EXIF data: "
    (buf <- loadImage (platform W) image ;;
     let opts := buildExifOptions pick in
     meta <- parse (exifr W) buf opts ;;
     if negb (truthy meta) then Return (createErrorResponse "No EXIF metadata found in image")
     else
       n <- Object_keys_length meta ;;
       if Nat.eqb n 0%nat then Return (createErrorResponse "No EXIF metadata found in image")
       else Return (createSuccessResponse W meta)).

(** Tool 3: read-xmp *)
Definition readXmpTool (W : World) (image : ImageSourceType)
    (extended : option bool) : McpResponse :=
  try_catch "Error reading XMP data: "
    (buf <- loadImage (platform W) image ;;
     let opts := buildXmpOptions extended in
     meta <- parse (exifr W) buf opts ;;
     if negb (truthy meta) then Return (createErrorResponse "No XMP metadata found in image")
     else
       x <- get meta "xmp" ;;
       if negb (truthy x) then Return (createErrorResponse "No XMP metadata found in image")
       else Return (createSuccessResponse W meta)).

(** Tools 4-7: read-icc, read-iptc, read-jfif, read-ihdr *)
Definition segmentTool (segment : SingleSegment) (W : World)
    (image : ImageSourceType) : McpResponse :=
  try_catch ("Error reading " ++ segment_name segment ++ " data: ")
    (buf <- loadImage (platform W) image ;;
     let opts := buildSegmentOptions segment in
     meta <- parse (exifr W) buf opts ;;
     let segmentKey := segment_key segment in
     if negb (truthy meta)
     then Return (createErrorResponse ("No " ++ segment_name segment ++ " metadata found in image"))
     else
       x <- get meta segmentKey ;;
       if negb (truthy x)
       then Return (createErrorResponse ("No " ++ segment_name segment ++ " metadata found in image"))
       else Return (createSuccessResponse W meta)).

(** Tool 8: orientation; the test is [orientation === undefined]. *)
Definition orientationTool (W : World) (image : ImageSourceType) : McpResponse :=
  try_catch "Error reading orientation: "
    (buf <- loadImage (platform W) image ;;
     o <- orientation (exifr W) buf ;;
     match o with
     | JUndefined => Return (createErrorResponse "No orientation metadata found in image")
     | _ => Return (createSuccessResponse W (JObject [("orientation", o)]))
     end).

(** Tool 9: rotation-info *)
Definition rotationInfoTool (W : World) (image : ImageSourceType) : McpResponse :=
  try_catch "Error reading rotation info: "
    (buf <- loadImage (platform W) image ;;
     r <- rotation (exifr W) buf ;;
     if negb (truthy r) then Return (createErrorResponse "No rotation metadata found in image")
     else Return (createSuccessResponse W r)).

(** Tool 10: gps-coordinates; there is no emptiness test, the payload is
    [gps || null]. *)
Definition gpsCoordinatesTool (W : World) (image : ImageSourceType) : McpResponse :=
  try_catch "Error reading GPS data: "
    (buf <- loadImage (platform W) image ;;
     g <- gps (exifr W) buf ;;
     Return (createSuccessResponse W (js_or g JNull))).

(** Tool 11: thumbnail *)
Definition thumbnailTool (W : World) (image : ImageSourceType)
    (url : option bool) : McpResponse :=
  try_catch "Error extracting thumbnail: "
    (buf <- loadImage (platform W) image ;;
     t <- thumbnail (exifr W) buf ;;
     if negb (truthy t) then Return (createErrorResponse "No thumbnail found in image")
     else if negb (match url with Some b => b | None => false end) then
       base64 <- to_base64 W t ;;
       let dataUrl := "data:" ++ "image/jpeg" ++ ";base64," ++ base64 in
       Return (createSuccessResponse W (JObject [("dataUrl", JString dataUrl)]))
     else
       base64 <- to_base64 W t ;;
       Return (createSuccessResponse W (JObject [("base64", JString base64)]))).

(** The eleven registered operations with their own arguments. *)
Inductive Operation : Type :=
| ReadMetadata (segments : option (list SegmentType))
| ReadExif (pick : option (list string))
| ReadXmp (extended : option bool)
| ReadSegment (segment : SingleSegment)
| Orientation
| RotationInfo
| GpsCoordinates
| Thumbnail (url : option bool).

(** [tools[name].callback({ image, ... })] *)
Definition call (W : World) (op : Operation) (image : ImageSourceType) : McpResponse :=
  match op with
  | ReadMetadata segments => readMetadataTool W image segments
  | ReadExif pick => readExifTool W image pick
  | ReadXmp extended => readXmpTool W image extended
  | ReadSegment segment => segmentTool segment W image
  | Orientation => orientationTool W image
  | RotationInfo => rotationInfoTool W image
  | GpsCoordinates => gpsCoordinatesTool W image
  | Thumbnail url => thumbnailTool W image url
  end.

(** The parser call an operation delegates to. *)
Definition delegated (W : World) (op : Operation) (buf : list byte) : Completion JsValue :=
  match op with
  | ReadMetadata segments => parse (exifr W) buf (buildOptions segments)
  | ReadExif pick => parse (exifr W) buf (buildExifOptions pick)
  | ReadXmp extended => parse (exifr W) buf (buildXmpOptions extended)
  | ReadSegment segment => parse (exifr W) buf (buildSegmentOptions segment)
  | Orientation => orientation (exifr W) buf
  | RotationInfo => rotation (exifr W) buf
  | GpsCoordinates => gps (exifr W) buf
  | Thumbnail _ => thumbnail (exifr W) buf
  end.

(** The message of the "nothing here" outcome of an operation; the
    gps-coordinates callback has no such outcome. *)
Definition not_found_message (op : Operation) : option string :=
  match op with
  | ReadMetadata _ => Some "No metadata found in image"
  | ReadExif _ => Some "No EXIF metadata found in image"
  | ReadXmp _ => Some "No XMP metadata found in image"
  | ReadSegment segment => Some ("No " ++ segment_name segment ++ " metadata found in image")
  | Orientation => Some "No orientation metadata found in image"
  | RotationInfo => Some "No rotation metadata found in image"
  | GpsCoordinates => None
  | Thumbnail _ => Some "No thumbnail found in image"
  end.

(** The operations that go through [exifr.parse], whose result is a
    mapping. *)
Definition parses (op : Operation) : bool :=
  match op with
  | ReadMetadata _ | ReadExif _ | ReadXmp _ | ReadSegment _ => true
  | _ => false
  end.

(** The key of the parsed mapping under which a single-segment operation
    expects its segment. *)
Definition requested_key (op : Operation) : option string :=
  match op with
  | ReadXmp _ => Some "xmp"
  | ReadSegment segment => Some (segment_key segment)
  | _ => None
  end.

(** "The parser returned an empty or absent result": nothing at all
    ([undefined] or [null]) or a mapping without entries. *)
Definition empty_or_absent (r : JsValue) : Prop :=
  r = JUndefined \/ r = JNull \/ r = JObject [].

(** The same, operation by operation: [undefined]; [null], which every
    emptiness test but the [=== undefined] of orientation takes for absent;
    the mapping without entries, for the operations that parse; and a mapping
    with nothing truthy under the requested segment's key. *)
Definition nothing_found (op : Operation) (r : JsValue) : Prop :=
  r = JUndefined
  \/ (op <> Orientation /\ r = JNull)
  \/ (parses op = true /\ r = JObject [])
  \/ (exists key props,
        requested_key op = Some key /\ r = JObject props
        /\ truthy (lookup key props) = false).

(** The sentence of the specification, read over every operation: the
    image loads, the delegated parser resolves to an empty or absent result,
    and the response is a failure. *)
Definition empty_result_always_fails : Prop :=
  forall (W : World) (op : Operation) (image : ImageSourceType)
         (buf : list byte) (r : JsValue),
    loadImage (platform W) image = Return buf ->
    delegated W op buf = Return r ->
    empty_or_absent r ->
    isError (call W op image) = Some true.

End Tools.

(* ================================================================== *)
(** ** A concrete world for running the model *)
(* ================================================================== *)

Module Sample.
Import Segments Loaders Tools.

(** The value of a base64 digit; the URL-safe digits are accepted as Node
    accepts them. *)
Definition digit (c : ascii) : option N :=
  let n := N_of_ascii c in
  if ((65 <=? n) && (n <=? 90))%N then Some (n - 65)%N
  else if ((97 <=? n) && (n <=? 122))%N then Some (n - 71)%N
  else if ((48 <=? n) && (n <=? 57))%N then Some (n + 4)%N
  else if ((n =? 43) || (n =? 45))%N then Some 62%N
  else if ((n =? 47) || (n =? 95))%N then Some 63%N
  else None.

(** The digits of a string up to the first [=]; other characters are
    skipped. *)
Fixpoint digits (s : string) : list N :=
  match s with
  | EmptyString => []
  | String c rest =>
      if Ascii.eqb c "="%char then []
      else match digit c with
           | Some d => d :: digits rest
           | None => digits rest
           end
  end.

Definition to_byte (n : N) : byte :=
  match Byte.of_N (n mod 256) with
  | Some b => b
  | None => x00
  end.

Fixpoint pack (ds : list N) : list byte :=
  match ds with
  | a :: b :: c :: d :: rest =>
      to_byte (a * 4 + b / 16) :: to_byte (b * 16 + c / 4) :: to_byte (c * 64 + d)
        :: pack rest
  | [a; b; c] => [to_byte (a * 4 + b / 16); to_byte (b * 16 + c / 4)]
  | [a; b] => [to_byte (a * 4 + b / 16)]
  | _ => []
  end%N.

(** A base64 decoder in the manner of Node's. *)
Definition decode (s : string) : list byte := pack (digits s).

Definition sample_bytes : list byte := [xff; xd8; xff; xe0].

(** One file, one page that is not there, one that is. *)
Definition sample_platform : Platform :=
  mkPlatform
    (fun p =>
       if (p =? "sample.jpg")%string then Return sample_bytes
       else Throw (ThrownError ("ENOENT: no such file or directory, open '" ++ p ++ "'")))
    (fun u => Return (substring 7 (String.length u - 7) u))
    (fun u =>
       if (u =? "https://example.com/not-found.jpg")%string
       then Return (mkFetchResponse false 404 "Not Found" (Return []))
       else Return (mkFetchResponse true 200 "OK" (Return sample_bytes)))
    decode.

(** A parser whose every entry point resolves to [r]. *)
Definition constant_exifr (r : JsValue) : Exifr :=
  mkExifr (fun _ _ => Return r) (fun _ => Return r) (fun _ => Return r)
    (fun _ => Return r) (fun _ => Return r).

(** A compact renderer for the payloads evaluated below. *)
Definition render (v : JsValue) : string :=
  match v with
  | JNull => "null"
  | JBool true => "true"
  | JBool false => "false"
  | JString s => dquote ++ s ++ dquote
  | JObject [] => "{}"
  | JArray [] => "[]"
  | _ => "[object]"
  end.

Definition sample_world (r : JsValue) : World :=
  mkWorld sample_platform (constant_exifr r) render
    (fun _ => Return "").

End Sample.

(* ================================================================== *)
(** ** Vocabulary for the further properties *)
(* ================================================================== *)

Module Outcomes.
Import Segments Loaders Tools.

(** A single-segment name as a member of [SegmentType]. *)
Definition to_segment (s : SingleSegment) : SegmentType :=
  match s with
  | SegICC => ICC | SegIPTC => IPTC | SegJFIF => JFIF | SegIHDR => IHDR
  end.

(** How many of the six segment flags are on. *)
Definition flags_on (o : ExifrOptions) : nat :=
  List.length (filter (fun b : bool => b)
                 [tiff o; xmp o; icc o; iptc o; jfif o; ihdr o]).

(** Every flag that is on in [a] is on in [b]. *)
Definition flags_le (a b : ExifrOptions) : Prop :=
  (tiff a = true -> tiff b = true) /\ (xmp a = true -> xmp b = true)
  /\ (icc a = true -> icc b = true) /\ (iptc a = true -> iptc b = true)
  /\ (jfif a = true -> jfif b = true) /\ (ihdr a = true -> ihdr b = true).

(** The field [loadImage] reads for the descriptor's tag. *)
Definition tag_field (src : ImageSourceType) : option string :=
  match kind src with
  | KPath => path src
  | KUrl => url src
  | KBase64 => data src
  | KBuffer => buffer src
  | KOther _ => None
  end.

(** Some call into the platform is rejected with the value [e]. *)
Definition platform_throws (P : Platform) (e : Thrown) : Prop :=
  (exists p, readFile P p = Throw e)
  \/ (exists u, fileURLToPath P u = Throw e)
  \/ (exists u, fetch P u = Throw e)
  \/ (exists u r, fetch P u = Return r /\ arrayBuffer r = Throw e).

(** The prefix each callback's [catch] puts before the message. *)
Definition error_prefix (op : Operation) : string :=
  match op with
  | ReadMetadata _ => "Error reading metadata: "
  | ReadExif _ => "Error reading EXIF data: "
  | ReadXmp _ => "Error reading XMP data: "
  | ReadSegment segment => "Error reading " ++ segment_name segment ++ " data: "
  | Orientation => "Error reading orientation: "
  | RotationInfo => "Error reading rotation info: "
  | GpsCoordinates => "Error reading GPS data: "
  | Thumbnail _ => "Error extracting thumbnail: "
  end.

(** A platform whose only file cannot be read. *)
Definition broken_platform : Platform :=
  mkPlatform
    (fun _ => Throw (ThrownError "EACCES: permission denied"))
    (fun u => Return (substring 7 (String.length u - 7) u))
    (fun _ => Throw (ThrownOther "offline"))
    Sample.decode.

(** A parser every entry point of which rejects with [e]. *)
Definition failing_exifr (e : Thrown) : Exifr :=
  mkExifr (fun _ _ => Throw e) (fun _ => Throw e) (fun _ => Throw e)
    (fun _ => Throw e) (fun _ => Throw e).

End Outcomes.

(* ================================================================== *)
(** * Properties of the segment option mapper *)
(* ================================================================== *)

Section SegmentFacts.
Import Segments.

Lemma requested_cons (a s : SegmentType) (segs : list SegmentType) :
  requested (a :: segs) s
  = (if SegmentType_eq_dec a s then true else false) || requested segs s.
Proof.
  unfold requested.
  destruct (in_dec SegmentType_eq_dec s (a :: segs)) as [i | n];
    destruct (SegmentType_eq_dec a s) as [e | ne];
    destruct (in_dec SegmentType_eq_dec s segs) as [i' | n'];
    simpl in *; try reflexivity; exfalso; tauto.
Qed.

(** The loop only ever switches flags on, and which ones depends on
    membership alone. *)
Lemma fold_enable (segs : list SegmentType) :
  forall o : ExifrOptions,
    fold_left enable segs o
    = mkOptions (tiff o || requested segs EXIF || requested segs GPS)
        (xmp o || requested segs XMP)
        (icc o || requested segs ICC)
        (iptc o || requested segs IPTC)
        (jfif o || requested segs JFIF)
        (ihdr o || requested segs IHDR)
        (multiSegment o) (pick o).
Proof.
  induction segs as [| a segs IH]; intros o.
  - destruct o; simpl; unfold requested; simpl.
    now rewrite !orb_false_r.
  - simpl fold_left. rewrite IH, !requested_cons.
    destruct a; simpl;
      repeat (destruct (SegmentType_eq_dec _ _) as [e | ne];
              [ try discriminate e | try (exfalso; apply ne; reflexivity) ]);
      simpl; rewrite ?orb_true_r, ?orb_false_r; try reflexivity;
      f_equal;
      repeat match goal with
             | |- context [ ?f o ] => destruct (f o)
             end; reflexivity.
Qed.

Lemma requested_same_members (l l' : list SegmentType) :
  (forall s, In s l <-> In s l') ->
  forall s, requested l s = requested l' s.
Proof.
  intros same s. unfold requested.
  destruct (in_dec SegmentType_eq_dec s l) as [i | n];
    destruct (in_dec SegmentType_eq_dec s l') as [i' | n'];
    try reflexivity; exfalso.
  - apply n', same, i.
  - apply n, same, i'.
Qed.

Lemma buildOptions_nonempty (a : SegmentType) (segs : list SegmentType) :
  buildOptions (Some (a :: segs)) = fold_left enable (a :: segs) all_disabled.
Proof. reflexivity. Qed.

Lemma buildOptions_same_members (l l' : list SegmentType) :
  (forall s, In s l <-> In s l') ->
  buildOptions (Some l) = buildOptions (Some l').
Proof.
  intros same.
  destruct l as [| a l]; destruct l' as [| a' l'].
  - reflexivity.
  - exfalso. apply (proj2 (same a')). now left.
  - exfalso. apply (proj1 (same a)). now left.
  - rewrite !buildOptions_nonempty, !fold_enable.
    now rewrite !(requested_same_members _ _ same).
Qed.

(** C5: [buildOptions] on the empty list and on no argument returns the
    record with all six segment flags true, and so does the full list
    EXIF, GPS, XMP, ICC, IPTC, JFIF, IHDR, whose result is identical to that
    of the empty request. *)
Theorem buildOptions_all_flags :
  buildOptions (Some []) = all_enabled
  /\ buildOptions None = all_enabled
  /\ buildOptions (Some every_segment) = all_enabled
  /\ buildOptions (Some every_segment) = buildOptions (Some [])
  /\ (tiff all_enabled = true /\ xmp all_enabled = true /\ icc all_enabled = true
      /\ iptc all_enabled = true /\ jfif all_enabled = true /\ ihdr all_enabled = true).
Proof. repeat split. Qed.

(** C6: [buildOptions] on EXIF alone and on GPS alone returns the same
    record, in which only the TIFF flag is true; and for every list of
    segments the result does not change when the list is permuted or when
    entries are repeated (two lists with the same members give the same
    record). *)
Theorem buildOptions_exif_gps_order_duplicates :
  buildOptions (Some [EXIF]) = only_tiff
  /\ buildOptions (Some [GPS]) = buildOptions (Some [EXIF])
  /\ (forall l l', Permutation l l' -> buildOptions (Some l) = buildOptions (Some l'))
  /\ (forall s l, In s l -> buildOptions (Some (s :: l)) = buildOptions (Some l))
  /\ (forall l l', (forall s, In s l <-> In s l') ->
        buildOptions (Some l) = buildOptions (Some l')).
Proof.
  split; [reflexivity |]. split; [reflexivity |].
  split; [| split].
  - intros l l' perm. apply buildOptions_same_members.
    intros s; split; intros i.
    + exact (Permutation_in s perm i).
    + exact (Permutation_in s (Permutation_sym perm) i).
  - intros s l i. apply buildOptions_same_members.
    intros x; simpl; split.
    + intros [e | i']; [now subst | assumption].
    + intros i'; now right.
  - exact buildOptions_same_members.
Qed.

(** The order and duplicate clauses of C6 on concrete requests. *)
Lemma buildOptions_exif_gps_order_duplicates_witness :
  buildOptions (Some [XMP; EXIF; ICC]) = buildOptions (Some [ICC; XMP; EXIF])
  /\ buildOptions (Some [IPTC; IPTC; JFIF]) = buildOptions (Some [IPTC; JFIF]).
Proof.
  destruct buildOptions_exif_gps_order_duplicates as (_ & _ & perm & dup & _).
  split.
  - apply perm.
    apply Permutation_sym, (Permutation_cons_app [XMP; EXIF] [] ICC).
    apply Permutation_refl.
  - apply dup. simpl. now left.
Defined.

(** C7: [buildExifOptions] always returns TIFF true and XMP, ICC, IPTC,
    JFIF, IHDR false; a supplied allow-list is the [pick] field verbatim, and
    without an allow-list the record has no [pick] field at all. *)
Theorem buildExifOptions_flags_and_pick :
  (forall p : option (list string),
      tiff (buildExifOptions p) = true
      /\ xmp (buildExifOptions p) = false /\ icc (buildExifOptions p) = false
      /\ iptc (buildExifOptions p) = false /\ jfif (buildExifOptions p) = false
      /\ ihdr (buildExifOptions p) = false)
  /\ (forall tags : list string, pick (buildExifOptions (Some tags)) = Some tags)
  /\ pick (buildExifOptions (Some ["Make"])) = Some ["Make"]
  /\ pick (buildExifOptions None) = None
  /\ pick (buildExifOptions None) <> Some [].
Proof.
  split; [| split; [| split; [| split]]].
  - intros p. repeat split.
  - reflexivity.
  - reflexivity.
  - reflexivity.
  - discriminate.
Qed.

(** C10: [buildExifOptions] on the empty allow-list returns a record whose
    [pick] field is present and is the empty list; only the absent argument
    leaves the field out. *)
Theorem buildExifOptions_empty_pick :
  pick (buildExifOptions (Some [])) = Some []
  /\ buildExifOptions (Some []) <> buildExifOptions None
  /\ (forall p, pick (buildExifOptions p) = None <-> p = None).
Proof.
  split; [reflexivity |]. split; [discriminate |].
  intros [tags |]; simpl; split; intros H; try reflexivity; discriminate H.
Qed.

End SegmentFacts.

(* ================================================================== *)
(** * Properties of the byte source resolver *)
(* ================================================================== *)

Section LoaderFacts.
Import Loaders.

(** Closes a goal whose hypothesis equates two different closed messages. *)
Ltac messages_differ H := exfalso; cbv in H; discriminate H.

Lemma iter_String_length (c : ascii) (n : positive) :
  forall s : string,
    String.length (Pos.iter (String c) s n) = (Pos.to_nat n + String.length s)%nat.
Proof.
  induction n as [n IH | n IH |]; intros s.
  - rewrite Pos2Nat.inj_xI. cbn [Pos.iter String.length]. rewrite !IH. lia.
  - rewrite Pos2Nat.inj_xO. cbn [Pos.iter]. rewrite !IH. lia.
  - reflexivity.
Qed.

Lemma repeat_char_length (c : ascii) (n : positive) :
  Z.of_nat (String.length (repeat_char c n)) = Z.pos n.
Proof.
  unfold repeat_char. rewrite iter_String_length. simpl String.length.
  rewrite Nat.add_0_r. apply positive_nat_Z.
Qed.

Lemma iter_String_head (c : ascii) (n : positive) :
  forall s : string, exists rest, Pos.iter (String c) s n = String c rest.
Proof.
  induction n as [n IH | n IH |]; intros s; simpl.
  - eexists; reflexivity.
  - destruct (IH s) as [r1 e1]. rewrite e1. apply IH.
  - eexists; reflexivity.
Qed.

Lemma repeat_char_head (c : ascii) (n : positive) :
  exists rest, repeat_char c n = String c rest.
Proof. apply iter_String_head. Qed.

Lemma repeat_A_not_data_uri (n : positive) :
  prefix "data:" (repeat_char "A" n) = false.
Proof. destruct (repeat_char_head "A" n) as [rest ->]. reflexivity. Qed.

Lemma required_nonempty (s message : string) :
  s <> "" -> required (Some s) message = Return s.
Proof.
  intros ne. unfold required.
  destruct (String.eqb_spec s "") as [e | _]; [contradiction | reflexivity].
Qed.

Lemma nonempty_of_length (s : string) :
  (0 < Z.of_nat (String.length s))%Z -> s <> "".
Proof. intros H ->. simpl in H. lia. Qed.

Lemma load_failure_prefix_inj (a b : string) :
  load_failure_prefix ++ a = load_failure_prefix ++ b -> a = b.
Proof. cbv [load_failure_prefix append]. intros H. now injection H. Qed.

(** The [catch] block: an [Error] leaves [loadImage] with the prefix put
    before its message, and no failure of [loadImage] has another origin. *)
Lemma loadImage_wraps (P : Platform) (src : ImageSourceType) (m : string) :
  resolve P src = Throw (ThrownError m) ->
  loadImage P src = Throw (ThrownError (load_failure_prefix ++ m)).
Proof. unfold loadImage. now intros ->. Qed.

Lemma loadImage_throw_inv (P : Platform) (src : ImageSourceType) (msg : string) :
  loadImage P src = Throw (ThrownError msg) ->
  exists m, resolve P src = Throw (ThrownError m) /\ msg = load_failure_prefix ++ m.
Proof.
  unfold loadImage.
  destruct (resolve P src) as [bytes | [m | r]]; intros H; try discriminate H.
  injection H as <-. now exists m.
Qed.

(** The [base64] branch, case by case. *)
Lemma resolve_base64 (P : Platform) (p u b : option string) (d : string) :
  resolve P (mkSource KBase64 p u (Some d) b)
  = if (d =? "")%string then Throw (ThrownError data_required_message)
    else if (size_limit <? Z.of_nat (String.length d))%Z
         then Throw (ThrownError payload_too_large_message)
         else if prefix "data:" d
              then Buffer_from_base64 P (nth_error (split ","%char d) 1)
              else Return (base64_decode P d).
Proof.
  cbv beta iota delta [resolve required kind data].
  destruct (d =? "")%string; reflexivity.
Qed.

Lemma resolve_tagged_inv (P : Platform) (src : ImageSourceType) (m : string) :
  resolve P src = Throw (ThrownError m) ->
  prefix payload_too_large_tag m = true ->
  (kind src = KBase64
   /\ (exists d, data src = Some d /\ (size_limit < Z.of_nat (String.length d))%Z)
   /\ m = payload_too_large_message)
  \/ platform_says P m.
Proof.
  unfold resolve, required, platform_says.
  destruct (kind src) as [| | | | name].
  - destruct (path src) as [p |]; [destruct (p =? "")%string |]; cbn [bind];
      intros H tagged; try (injection H as <-; discriminate tagged).
    right; left. now exists p.
  - destruct (url src) as [u |]; [destruct (u =? "")%string |]; cbn [bind];
      try (intros H tagged; injection H as <-; discriminate tagged).
    destruct (prefix "file://" u).
    + destruct (fileURLToPath P u) as [filePath | e] eqn:conv; cbn [bind];
        intros H tagged; right.
      * left. now exists filePath.
      * injection H as ->. right; left. now exists u.
    + destruct (fetch P u) as [r | e] eqn:fetched; cbn [bind].
      * destruct (ok r); cbn [bind negb]; intros H tagged.
        -- right; right; right; right. now exists u, r.
        -- injection H as <-. discriminate tagged.
      * intros H tagged. injection H as ->. right; right; right; left. now exists u.
  - destruct (data src) as [d |]; [destruct (d =? "")%string |]; cbn [bind];
      try (intros H tagged; injection H as <-; discriminate tagged).
    destruct (Z.ltb_spec size_limit (Z.of_nat (String.length d))) as [over | within].
    + intros H _. injection H as <-. left. split; [reflexivity |].
      split; [now exists d | reflexivity].
    + destruct (prefix "data:" d); [destruct (nth_error (split ","%char d) 1) |];
        cbn [Buffer_from_base64]; intros H tagged; try discriminate H.
      injection H as <-. discriminate tagged.
  - destruct (buffer src) as [b |]; [destruct (b =? "")%string |];
      cbn [bind Buffer_from_base64]; intros H tagged; try discriminate H;
      injection H as <-; discriminate tagged.
  - intros H tagged. injection H as <-. discriminate tagged.
Qed.

(** The size guard decides the payload-too-large failure of a [base64]
    descriptor. *)
Lemma base64_too_large_iff (P : Platform) (p u b : option string) (d : string) :
  loadImage P (mkSource KBase64 p u (Some d) b)
    = Throw (ThrownError payload_too_large_failure)
  <-> (size_limit < Z.of_nat (String.length d))%Z.
Proof.
  unfold loadImage. rewrite resolve_base64.
  destruct (String.eqb_spec d "") as [-> | ne].
  - split; intros H; [messages_differ H | simpl in H; unfold size_limit in H; lia].
  - destruct (Z.ltb_spec size_limit (Z.of_nat (String.length d))) as [over | within].
    + split; [intros _; exact over | intros _; reflexivity].
    + destruct (prefix "data:" d); [destruct (nth_error (split ","%char d) 1) |]; simpl;
        (split; intros H; [try discriminate H; messages_differ H | lia]).
Qed.

(** C2: a [base64] descriptor fails with the payload-too-large error exactly
    when its encoded string is longer than 40,000,000 characters, so a string
    of exactly 40,000,000 characters passes the size guard and every longer
    one is rejected; and that failure is told apart from every other load
    failure by its message: the message opens with the load-failure prefix
    followed by the tag [PayloadTooLarge], and unless the platform itself
    reports an error opening with that tag, a failure of [loadImage] whose
    message opens so is the size guard firing on a [base64] descriptor. *)
Theorem payload_too_large_guard (P : Platform) :
  size_limit = 40000000%Z
  /\ (forall (p u b : option string) (d : string),
        loadImage P (mkSource KBase64 p u (Some d) b)
          = Throw (ThrownError payload_too_large_failure)
        <-> (size_limit < Z.of_nat (String.length d))%Z)
  /\ prefix (load_failure_prefix ++ payload_too_large_tag) payload_too_large_failure
       = true
  /\ (forall (src : ImageSourceType) (msg : string),
        ~ platform_says_tagged P payload_too_large_tag ->
        loadImage P src = Throw (ThrownError msg) ->
        prefix (load_failure_prefix ++ payload_too_large_tag) msg = true ->
        msg = payload_too_large_failure
        /\ kind src = KBase64
        /\ exists d, data src = Some d
                     /\ (size_limit < Z.of_nat (String.length d))%Z).
Proof.
  split; [reflexivity |]. split; [apply base64_too_large_iff |].
  split; [reflexivity |].
  intros src msg quiet H tagged.
  apply loadImage_throw_inv in H. destruct H as (m & thrown & ->).
  change (prefix payload_too_large_tag m = true) in tagged.
  destruct (resolve_tagged_inv P src m thrown tagged) as [(is_b64 & long & ->) | said].
  - now repeat split.
  - exfalso. apply quiet. now exists m.
Qed.

Lemma sample_platform_quiet :
  ~ platform_says_tagged Sample.sample_platform payload_too_large_tag.
Proof.
  unfold platform_says_tagged, platform_says.
  intros (m & tagged & [[p H] | [[u H] | [[u H] | (u & r & H1 & H2)]]]); simpl in *.
  - destruct (p =? "sample.jpg")%string; [discriminate H |].
    injection H as <-. discriminate tagged.
  - discriminate H.
  - destruct (u =? "https://example.com/not-found.jpg")%string; discriminate H.
  - destruct (u =? "https://example.com/not-found.jpg")%string;
      injection H1 as <-; discriminate H2.
Qed.

(** C2 at the boundary: 40,000,001 characters are rejected, 40,000,000 are
    not, and the failure of a fetch does not open with the tag. *)
Lemma payload_too_large_guard_witness :
  loadImage Sample.sample_platform (fromBase64 (repeat_char "A" 40000001))
    = Throw (ThrownError payload_too_large_failure)
  /\ loadImage Sample.sample_platform (fromBase64 (repeat_char "A" 40000000))
       <> Throw (ThrownError payload_too_large_failure)
  /\ loadImage Sample.sample_platform (fromUrl "https://example.com/not-found.jpg")
       <> Throw (ThrownError payload_too_large_failure).
Proof.
  destruct (payload_too_large_guard Sample.sample_platform)
    as (limit & guard & _ & distinct).
  split; [| split].
  - apply guard. rewrite repeat_char_length, limit. reflexivity.
  - intros H. apply guard in H. rewrite repeat_char_length, limit in H.
    discriminate H.
  - intros H. apply (distinct _ _ sample_platform_quiet) in H; [| reflexivity].
    destruct H as (_ & H & _). discriminate H.
Defined.

(** Within the limit a string that is not a data URI is decoded whole, by
    either tag. *)
Lemma loadImage_base64_raw (P : Platform) (d : string) :
  d <> "" ->
  (Z.of_nat (String.length d) <= size_limit)%Z ->
  prefix "data:" d = false ->
  loadImage P (fromBase64 d) = Return (base64_decode P d).
Proof.
  intros ne within raw. unfold loadImage, fromBase64. rewrite resolve_base64.
  destruct (String.eqb_spec d "") as [e | _]; [contradiction |].
  destruct (Z.ltb_spec size_limit (Z.of_nat (String.length d))) as [over | _]; [lia |].
  now rewrite raw.
Qed.

(** Exactly at the limit: 40,000,000 letters A are decoded. *)
Lemma base64_at_limit_succeeds (P : Platform) :
  loadImage P (fromBase64 (repeat_char "A" 40000000))
  = Return (base64_decode P (repeat_char "A" 40000000)).
Proof.
  apply loadImage_base64_raw.
  - apply nonempty_of_length. now rewrite repeat_char_length.
  - rewrite repeat_char_length. unfold size_limit. lia.
  - apply repeat_A_not_data_uri.
Qed.

Lemma loadImage_buffer (P : Platform) (b : string) :
  b <> "" -> loadImage P (fromBuffer b) = Return (base64_decode P b).
Proof.
  intros ne. unfold loadImage, fromBuffer.
  cbv beta iota delta [resolve kind buffer].
  now rewrite (required_nonempty _ _ ne).
Qed.

(** Where the two inline tags do agree. *)
Lemma buffer_matches_base64_within_limit (P : Platform) (s : string) :
  s <> "" ->
  (Z.of_nat (String.length s) <= size_limit)%Z ->
  prefix "data:" s = false ->
  loadImage P (fromBuffer s) = loadImage P (fromBase64 s).
Proof.
  intros ne within raw.
  now rewrite loadImage_buffer, loadImage_base64_raw.
Qed.

(** C3, on the code: for the string of 40,000,001 letters A, which does not
    begin with the data-URI marker, the [buffer] descriptor resolves to the
    decoded bytes while the [base64] descriptor fails with the
    payload-too-large error; the [buffer] branch has no size guard. *)
Theorem buffer_skips_size_guard (P : Platform) :
  let s := repeat_char "A" 40000001 in
  prefix "data:" s = false
  /\ loadImage P (fromBuffer s) = Return (base64_decode P s)
  /\ loadImage P (fromBase64 s) = Throw (ThrownError payload_too_large_failure)
  /\ loadImage P (fromBuffer s) <> loadImage P (fromBase64 s).
Proof.
  intros s.
  assert (long : Z.of_nat (String.length s) = 40000001%Z)
    by apply repeat_char_length.
  assert (ne : s <> "") by (apply nonempty_of_length; lia).
  assert (rejected :
            loadImage P (fromBase64 s) = Throw (ThrownError payload_too_large_failure)).
  { apply (base64_too_large_iff P None None None s).
    rewrite long. reflexivity. }
  split; [apply repeat_A_not_data_uri |].
  split; [exact (loadImage_buffer P s ne) |].
  split; [exact rejected |].
  rewrite rejected, (loadImage_buffer P s ne). discriminate.
Qed.

Lemma split_second (sep : ascii) (d : string) :
  nth_error (split sep d) 1
  = match after_first sep d with
    | Some rest => Some (first_piece sep rest)
    | None => None
    end.
Proof.
  unfold first_piece.
  induction d as [| c rest IH]; [reflexivity |].
  cbn [split after_first]. destruct (Ascii.eqb c sep).
  - cbn [nth_error]. destruct rest as [| c' rest']; [reflexivity |].
    cbn [split] in *. destruct (Ascii.eqb c' sep); [reflexivity |].
    destruct (split sep rest'); reflexivity.
  - rewrite <- IH. destruct (split sep rest) as [| piece pieces]; reflexivity.
Qed.

Lemma first_piece_without_sep (sep : ascii) (s : string) :
  after_first sep s = None -> first_piece sep s = s.
Proof.
  unfold first_piece.
  induction s as [| c rest IH]; [reflexivity |].
  cbn [split after_first]. destruct (Ascii.eqb c sep); [discriminate |].
  intros none. specialize (IH none).
  destruct (split sep rest) as [| piece pieces]; cbn [hd] in *; now subst.
Qed.

(** What the data-URI branch hands to the decoder: the piece between the
    first comma and the next one (or the end), and nothing when there is no
    comma. *)
Lemma loadImage_base64_data_uri (P : Platform) (d : string) :
  (Z.of_nat (String.length d) <= size_limit)%Z ->
  prefix "data:" d = true ->
  loadImage P (fromBase64 d)
  = match after_first ","%char d with
    | Some rest => Return (base64_decode P (first_piece ","%char rest))
    | None => Throw (ThrownError (load_failure_prefix ++ buffer_from_undefined_message))
    end.
Proof.
  intros within uri. unfold loadImage, fromBase64. rewrite resolve_base64.
  destruct (String.eqb_spec d "") as [-> | _]; [discriminate uri |].
  destruct (Z.ltb_spec size_limit (Z.of_nat (String.length d))) as [over | _]; [lia |].
  rewrite uri, split_second.
  destruct (after_first ","%char d); reflexivity.
Qed.

(** With a single comma the whole payload is decoded. *)
Lemma loadImage_base64_data_uri_one_comma (P : Platform) (d payload : string) :
  (Z.of_nat (String.length d) <= size_limit)%Z ->
  prefix "data:" d = true ->
  after_first ","%char d = Some payload ->
  after_first ","%char payload = None ->
  loadImage P (fromBase64 d) = Return (base64_decode P payload).
Proof.
  intros within uri first none.
  rewrite (loadImage_base64_data_uri P d within uri), first.
  now rewrite (first_piece_without_sep _ _ none).
Qed.

(** C4, on the code: the data URI [data:image/jpeg;base64,AAAA,BBBB] is
    within the size limit and begins with the marker; the substring after
    its first comma is [AAAA,BBBB], but [loadImage] decodes only [AAAA], the
    piece up to the second comma ([split(',')[1]]). With the sample decoder
    that is three bytes instead of six. *)
Theorem data_uri_cut_at_second_comma (P : Platform) :
  prefix "data:" two_comma_uri = true
  /\ (Z.of_nat (String.length two_comma_uri) <= size_limit)%Z
  /\ after_first ","%char two_comma_uri = Some "AAAA,BBBB"
  /\ loadImage P (fromBase64 two_comma_uri) = Return (base64_decode P "AAAA")
  /\ loadImage Sample.sample_platform (fromBase64 two_comma_uri)
       = Return [x00; x00; x00]
  /\ Sample.decode "AAAA,BBBB" = [x00; x00; x00; x04; x10; x41].
Proof.
  repeat split; try reflexivity. unfold size_limit. simpl. lia.
Qed.

Lemma append_assoc (a b c : string) : (a ++ b) ++ c = a ++ b ++ c.
Proof. induction a as [| x a IH]; simpl; [reflexivity | now rewrite IH]. Qed.

Lemma append_nil_r (a : string) : a ++ "" = a.
Proof. induction a as [| x a IH]; simpl; [reflexivity | now rewrite IH]. Qed.

(** C8: for a [url] descriptor whose URL does not start with [file://], a
    fetch that resolves to a response that is not ok makes [loadImage] fail
    with an [Error] whose message is the load-failure prefix followed by
    [Failed to fetch URL: <status> <statusText>]; the message contains the
    decimal status code and the status text verbatim. The prefix is put
    before the original message of every [Error] the resolver raises. *)
Theorem fetch_not_ok_failure (P : Platform) (src : ImageSourceType)
    (u : string) (r : Response) :
  kind src = KUrl ->
  url src = Some u ->
  u <> "" ->
  prefix "file://" u = false ->
  fetch P u = Return r ->
  ok r = false ->
  let original := "Failed to fetch URL: " ++ number_to_string (status r)
                    ++ " " ++ statusText r in
  loadImage P src = Throw (ThrownError ("Failed to load image: " ++ original))
  /\ contains (number_to_string (status r)) ("Failed to load image: " ++ original)
  /\ contains (statusText r) ("Failed to load image: " ++ original)
  /\ (forall (src' : ImageSourceType) (m : string),
        resolve P src' = Throw (ThrownError m) ->
        loadImage P src' = Throw (ThrownError ("Failed to load image: " ++ m))).
Proof.
  intros is_url has_url ne remote fetched not_ok original.
  split; [| split; [| split]].
  - apply (loadImage_wraps P src original).
    unfold resolve. rewrite is_url, has_url, (required_nonempty _ _ ne).
    cbn [bind]. rewrite remote, fetched. cbn [bind]. now rewrite not_ok.
  - exists ("Failed to load image: " ++ "Failed to fetch URL: "), (" " ++ statusText r).
    reflexivity.
  - exists ("Failed to load image: " ++ "Failed to fetch URL: "
            ++ number_to_string (status r) ++ " "), "".
    unfold original. now rewrite append_nil_r, !append_assoc.
  - exact (loadImage_wraps P).
Qed.

(** C8 on the sample platform: the page that answers 404 Not Found. *)
Lemma fetch_not_ok_failure_witness :
  loadImage Sample.sample_platform (fromUrl "https://example.com/not-found.jpg")
  = Throw (ThrownError "Failed to load image: Failed to fetch URL: 404 Not Found").
Proof.
  refine (proj1 (fetch_not_ok_failure Sample.sample_platform
                   (fromUrl "https://example.com/not-found.jpg")
                   "https://example.com/not-found.jpg"
                   (mkFetchResponse false 404 "Not Found" (Return []))
                   _ _ _ _ _ _)); try reflexivity.
  discriminate.
Defined.

(** C9: a descriptor whose field for its tag is the empty string fails with
    the required-field error of that tag, exactly as when the field is
    absent, whatever the platform: neither the file system, nor the network,
    nor the decoder is consulted. *)
Theorem empty_field_is_missing (P : Platform) (p u d b : option string) :
  (loadImage P (mkSource KPath (Some "") u d b)
     = Throw (ThrownError (load_failure_prefix ++ path_required_message))
   /\ loadImage P (mkSource KPath None u d b)
      = loadImage P (mkSource KPath (Some "") u d b))
  /\ (loadImage P (mkSource KUrl p (Some "") d b)
      = Throw (ThrownError (load_failure_prefix ++ url_required_message))
      /\ loadImage P (mkSource KUrl p None d b)
         = loadImage P (mkSource KUrl p (Some "") d b))
  /\ (loadImage P (mkSource KBase64 p u (Some "") b)
      = Throw (ThrownError (load_failure_prefix ++ data_required_message))
      /\ loadImage P (mkSource KBase64 p u None b)
         = loadImage P (mkSource KBase64 p u (Some "") b))
  /\ (loadImage P (mkSource KBuffer p u d (Some ""))
      = Throw (ThrownError (load_failure_prefix ++ buffer_required_message))
      /\ loadImage P (mkSource KBuffer p u d None)
         = loadImage P (mkSource KBuffer p u d (Some ""))).
Proof. repeat split. Qed.

End LoaderFacts.

(* ================================================================== *)
(** * Properties of the tool callbacks *)
(* ================================================================== *)

Section ToolFacts.
Import Segments Loaders Tools.

(** Only gps-coordinates lacks a "nothing here" message. *)
Lemma not_found_message_none (op : Operation) :
  not_found_message op = None <-> op = GpsCoordinates.
Proof. destruct op; simpl; split; intros H; try reflexivity; discriminate H. Qed.

(** The gps-coordinates callback answers a falsy parser result with a
    success response whose payload is [null]. *)
Lemma gps_falsy_is_success_null (W : World) (image : ImageSourceType)
    (buf : list byte) (g : JsValue) :
  loadImage (platform W) image = Return buf ->
  gps (exifr W) buf = Return g ->
  truthy g = false ->
  call W GpsCoordinates image = createSuccessResponse W JNull
  /\ isError (call W GpsCoordinates image) = None.
Proof.
  intros loaded parsed falsy.
  unfold call, gpsCoordinatesTool. rewrite loaded. cbn [bind]. rewrite parsed.
  cbn [bind try_catch]. unfold js_or. rewrite falsy. now split.
Qed.

(** The read-metadata scenario with a non-empty result: the payload is the
    parsed mapping. *)
Lemma read_metadata_success (W : World) (image : ImageSourceType)
    (segments : option (list SegmentType)) (buf : list byte)
    (k : string) (v : JsValue) (props : list (string * JsValue)) :
  loadImage (platform W) image = Return buf ->
  parse (exifr W) buf (buildOptions segments) = Return (JObject ((k, v) :: props)) ->
  call W (ReadMetadata segments) image
  = createSuccessResponse W (JObject ((k, v) :: props)).
Proof.
  intros loaded parsed.
  unfold call, readMetadataTool. rewrite loaded. cbn [bind]. now rewrite parsed.
Qed.

(** C1, as the specification words it, fails: on the sample file with a
    parser whose gps query resolves to [null], gps-coordinates returns a
    success response (no [isError]) whose text is the rendering of [null]. *)
Lemma gps_null_is_not_a_failure : ~ empty_result_always_fails.
Proof.
  intros claim.
  specialize (claim (Sample.sample_world JNull) GpsCoordinates
                (fromPath "sample.jpg") Sample.sample_bytes JNull
                eq_refl eq_refl (or_intror (or_introl eq_refl))).
  discriminate claim.
Qed.

(** C1, amended: when the image loads and the delegated parser resolves to
    nothing ([undefined]; [null], except for orientation; an empty mapping
    for the operations that parse; a mapping with nothing under the
    requested segment's key), every operation other than gps-coordinates
    returns the failure response carrying its own "No ... found" message,
    and gps-coordinates returns a success response whose payload is
    [null]. *)
Theorem nothing_found_response (W : World) (op : Operation)
    (image : ImageSourceType) (buf : list byte) (r : JsValue) :
  loadImage (platform W) image = Return buf ->
  delegated W op buf = Return r ->
  nothing_found op r ->
  match not_found_message op with
  | Some message =>
      call W op image = createErrorResponse message
      /\ isError (call W op image) = Some true
  | None =>
      op = GpsCoordinates
      /\ call W op image = createSuccessResponse W JNull
      /\ isError (call W op image) = None
  end.
Proof.
  intros loaded parsed nothing.
  destruct op; cbn [not_found_message delegated] in *;
    unfold call, readMetadataTool, readExifTool, readXmpTool, segmentTool,
      orientationTool, rotationInfoTool, gpsCoordinatesTool, thumbnailTool;
    rewrite loaded; cbn [bind]; rewrite parsed; cbn [bind];
    destruct nothing as [-> | [[not_orientation ->] | [[is_parse ->] | (key & props & is_key & -> & falsy)]]];
    try discriminate is_parse; try discriminate is_key;
    try (exfalso; apply not_orientation; reflexivity);
    try (injection is_key as <-; cbn [truthy negb get bind]; rewrite falsy);
    repeat split.
Qed.

(** C1 amended, on the scenario of the specification: the sample file and a
    parser that resolves to the empty mapping. *)
Lemma nothing_found_response_witness :
  call (Sample.sample_world (JObject [])) (ReadMetadata None) (fromPath "sample.jpg")
  = createErrorResponse "No metadata found in image".
Proof.
  refine (proj1 (nothing_found_response (Sample.sample_world (JObject []))
                   (ReadMetadata None) (fromPath "sample.jpg")
                   Sample.sample_bytes (JObject []) eq_refl eq_refl _)).
  right; right; left. split; reflexivity.
Defined.

End ToolFacts.

(* ================================================================== *)
(** * Further properties of the segment option mapper *)
(* ================================================================== *)

Section MoreSegmentFacts.
Import Segments Outcomes.

Lemma requested_true_iff (segs : list SegmentType) (s : SegmentType) :
  requested segs s = true <-> In s segs.
Proof.
  unfold requested. destruct (in_dec SegmentType_eq_dec s segs) as [i | n].
  - now split.
  - split; [discriminate | contradiction].
Qed.

Lemma buildOptions_requested (segs : list SegmentType) :
  segs <> [] ->
  buildOptions (Some segs)
  = mkOptions (requested segs EXIF || requested segs GPS) (requested segs XMP)
      (requested segs ICC) (requested segs IPTC) (requested segs JFIF)
      (requested segs IHDR) None None.
Proof.
  destruct segs as [| a segs]; [contradiction |]. intros _.
  rewrite buildOptions_nonempty, fold_enable. reflexivity.
Qed.

(** X1: For a non-empty request each flag is on exactly when a segment that
    maps to it is in the list: TIFF for EXIF or GPS, and the five others each
    for the segment of the same name. *)
Theorem buildOptions_flag_iff_requested (segs : list SegmentType) :
  segs <> [] ->
  (tiff (buildOptions (Some segs)) = true <-> In EXIF segs \/ In GPS segs)
  /\ (xmp (buildOptions (Some segs)) = true <-> In XMP segs)
  /\ (icc (buildOptions (Some segs)) = true <-> In ICC segs)
  /\ (iptc (buildOptions (Some segs)) = true <-> In IPTC segs)
  /\ (jfif (buildOptions (Some segs)) = true <-> In JFIF segs)
  /\ (ihdr (buildOptions (Some segs)) = true <-> In IHDR segs).
Proof.
  intros ne. rewrite (buildOptions_requested segs ne). cbn [tiff xmp icc iptc jfif ihdr].
  rewrite orb_true_iff, !requested_true_iff. repeat split; tauto.
Qed.

Lemma buildOptions_flag_iff_requested_witness :
  tiff (buildOptions (Some [GPS; ICC])) = true
  /\ xmp (buildOptions (Some [GPS; ICC])) <> true.
Proof.
  destruct (buildOptions_flag_iff_requested [GPS; ICC]) as (t & x & _);
    [discriminate |].
  split.
  - apply t. right. now left.
  - intros on. apply x in on. simpl in on.
    destruct on as [e | [e | []]]; discriminate e.
Defined.

(** X2: [buildOptions] never attaches a tag allow-list or the multi-segment
    flag, whatever is requested. *)
Theorem buildOptions_no_pick_no_multiSegment (segments : option (list SegmentType)) :
  pick (buildOptions segments) = None /\ multiSegment (buildOptions segments) = None.
Proof.
  destruct segments as [[| a segs] |]; try (split; reflexivity).
  rewrite buildOptions_nonempty, fold_enable. split; reflexivity.
Qed.

(** X3: The flags of a concatenated request are the flag-wise disjunction of the
    flags of its two non-empty parts. *)
Theorem buildOptions_app (l1 l2 : list SegmentType) :
  l1 <> [] -> l2 <> [] ->
  let o := buildOptions (Some (l1 ++ l2)%list) in
  let o1 := buildOptions (Some l1) in
  let o2 := buildOptions (Some l2) in
  tiff o = tiff o1 || tiff o2 /\ xmp o = xmp o1 || xmp o2
  /\ icc o = icc o1 || icc o2 /\ iptc o = iptc o1 || iptc o2
  /\ jfif o = jfif o1 || jfif o2 /\ ihdr o = ihdr o1 || ihdr o2.
Proof.
  intros ne1 ne2.
  assert (ne : (l1 ++ l2)%list <> []).
  { intros e. apply app_eq_nil in e. now destruct e. }
  assert (split_requested :
            forall s, requested (l1 ++ l2)%list s = requested l1 s || requested l2 s).
  { intros s. apply eq_true_iff_eq.
    rewrite orb_true_iff, !requested_true_iff. apply in_app_iff. }
  cbv zeta.
  rewrite (buildOptions_requested _ ne), (buildOptions_requested _ ne1),
    (buildOptions_requested _ ne2).
  cbn [tiff xmp icc iptc jfif ihdr]. rewrite !split_requested.
  repeat split;
    destruct (requested l1 EXIF), (requested l1 GPS), (requested l2 EXIF),
      (requested l2 GPS); reflexivity.
Qed.

Lemma buildOptions_app_witness :
  tiff (buildOptions (Some ([XMP] ++ [GPS])%list)) = true
  /\ icc (buildOptions (Some ([XMP] ++ [GPS])%list)) = false.
Proof.
  destruct (buildOptions_app [XMP] [GPS]) as (t & _ & i & _); try discriminate.
  split; [rewrite t | rewrite i]; reflexivity.
Defined.

(** X4: Requesting more never switches a flag off, as long as something is
    requested: if every segment of a non-empty list is also in another list,
    every flag the first turns on the second turns on too. The empty request
    is the exception at the bottom: it turns on every flag, so it dominates
    every request. *)
Theorem buildOptions_monotone (l l' : list SegmentType) :
  l <> [] -> incl l l' ->
  flags_le (buildOptions (Some l)) (buildOptions (Some l'))
  /\ flags_le (buildOptions (Some l')) (buildOptions (Some [])).
Proof.
  intros ne sub.
  assert (ne' : l' <> []).
  { destruct l as [| a l]; [contradiction |].
    intros ->. exact (sub a (or_introl eq_refl)). }
  split.
  - destruct (buildOptions_flag_iff_requested l ne) as (t & x & i & p & j & h).
    destruct (buildOptions_flag_iff_requested l' ne') as (t' & x' & i' & p' & j' & h').
    unfold flags_le. repeat split; intros on.
    + apply t'. apply t in on. destruct on as [e | g]; [left | right]; now apply sub.
    + apply x', sub, x, on.
    + apply i', sub, i, on.
    + apply p', sub, p, on.
    + apply j', sub, j, on.
    + apply h', sub, h, on.
  - unfold flags_le. repeat split; reflexivity.
Qed.

Lemma buildOptions_monotone_witness :
  flags_le (buildOptions (Some [ICC])) (buildOptions (Some [EXIF; ICC])).
Proof.
  apply (buildOptions_monotone [ICC] [EXIF; ICC]); [discriminate |].
  intros s [<- | []]. right. now left.
Defined.

(** X5: The presets are single requests: [buildSegmentOptions] of a segment is
    [buildOptions] of the one-element list with that segment,
    [buildExifOptions] without allow-list is [buildOptions] of EXIF alone,
    and [buildXmpOptions] differs from [buildOptions] of XMP alone only in
    carrying the multi-segment flag, which is false unless [true] was
    passed. *)
Theorem presets_are_single_requests :
  (forall s : SingleSegment,
      buildSegmentOptions s = buildOptions (Some [to_segment s]))
  /\ buildExifOptions None = buildOptions (Some [EXIF])
  /\ (forall tags, buildExifOptions (Some tags)
                   = mkOptions true false false false false false None (Some tags))
  /\ (forall extended : option bool,
        buildXmpOptions extended
        = mkOptions (tiff (buildOptions (Some [XMP]))) (xmp (buildOptions (Some [XMP])))
            (icc (buildOptions (Some [XMP]))) (iptc (buildOptions (Some [XMP])))
            (jfif (buildOptions (Some [XMP]))) (ihdr (buildOptions (Some [XMP])))
            (Some (match extended with Some true => true | _ => false end))
            (pick (buildOptions (Some [XMP])))).
Proof.
  split; [intros []; reflexivity |]. split; [reflexivity |].
  split; [reflexivity |]. intros [[|] |]; reflexivity.
Qed.

(** X6: Every preset turns on exactly one of the six flags, and different
    single segments give different option records. *)
Theorem presets_enable_one_flag :
  (forall s, flags_on (buildSegmentOptions s) = 1%nat)
  /\ (forall p, flags_on (buildExifOptions p) = 1%nat)
  /\ (forall e, flags_on (buildXmpOptions e) = 1%nat)
  /\ (forall s s', buildSegmentOptions s = buildSegmentOptions s' -> s = s').
Proof.
  split; [intros []; reflexivity |]. split; [intros [p |]; reflexivity |].
  split; [intros [[|] |]; reflexivity |].
  intros [] [] e; try reflexivity; discriminate e.
Qed.

End MoreSegmentFacts.

(* ================================================================== *)
(** * Further properties of the byte source resolver *)
(* ================================================================== *)

Section MoreLoaderFacts.
Import Loaders Outcomes.

Lemma resolve_path (P : Platform) (p : string) :
  p <> "" -> resolve P (fromPath p) = readFile P p.
Proof.
  intros ne. cbv beta iota delta [resolve fromPath kind path].
  rewrite (required_nonempty _ _ ne). reflexivity.
Qed.

Lemma file_url_nonempty (u : string) : prefix "file://" u = true -> u <> "".
Proof. intros is_file ->. discriminate is_file. Qed.

Lemma resolve_file_url (P : Platform) (u : string) :
  prefix "file://" u = true ->
  resolve P (fromUrl u) = bind (fileURLToPath P u) (readFile P).
Proof.
  intros is_file. cbv beta iota delta [resolve fromUrl kind url].
  rewrite (required_nonempty _ _ (file_url_nonempty u is_file)).
  cbn [bind]. now rewrite is_file.
Qed.

Lemma resolve_remote (P : Platform) (u : string) (r : Response) :
  u <> "" -> prefix "file://" u = false -> fetch P u = Return r ->
  resolve P (fromUrl u)
  = if negb (ok r) then Throw (ThrownError (fetch_failed_message r))
    else arrayBuffer r.
Proof.
  intros ne remote fetched. cbv beta iota delta [resolve fromUrl kind url].
  rewrite (required_nonempty _ _ ne). cbn [bind]. now rewrite remote, fetched.
Qed.

Lemma prefix_app (a h x : string) :
  prefix a h = true -> prefix a (h ++ x) = true.
Proof.
  revert h. induction a as [| c a IH]; intros h H;
    [destruct (h ++ x); reflexivity |].
  destruct h as [| c' h]; [discriminate H |].
  cbn [prefix append] in *.
  destruct (ascii_dec c c'); [now apply IH | discriminate H].
Qed.

Lemma after_first_app (sep : ascii) (h payload : string) :
  after_first sep h = None ->
  after_first sep (h ++ String sep payload) = Some payload.
Proof.
  induction h as [| c h IH]; cbn [append after_first].
  - intros _. now rewrite Ascii.eqb_refl.
  - destruct (Ascii.eqb c sep); [discriminate | exact IH].
Qed.

(** X7: A [path] descriptor with a non-empty path resolves to exactly the bytes
    [readFile] gives for that path, and succeeds only then; an [Error] of
    the read comes back with the load-failure prefix before its message, and
    a rejection that is not an [Error] comes back untouched. *)
Theorem path_returns_file_content (P : Platform) (p : string) :
  p <> "" ->
  (forall bytes, loadImage P (fromPath p) = Return bytes <-> readFile P p = Return bytes)
  /\ (forall m, readFile P p = Throw (ThrownError m) ->
        loadImage P (fromPath p) = Throw (ThrownError ("Failed to load image: " ++ m)))
  /\ (forall r, readFile P p = Throw (ThrownOther r) ->
        loadImage P (fromPath p) = Throw (ThrownOther r)).
Proof.
  intros ne. unfold loadImage. rewrite (resolve_path P p ne).
  split; [| split].
  - intros bytes. destruct (readFile P p) as [b | [m | r]];
      split; intros H; try discriminate H; exact H.
  - now intros m ->.
  - now intros r ->.
Qed.

Lemma path_returns_file_content_witness :
  loadImage Sample.sample_platform (fromPath "sample.jpg") = Return Sample.sample_bytes
  /\ loadImage broken_platform (fromPath "sample.jpg")
     = Throw (ThrownError "Failed to load image: EACCES: permission denied").
Proof.
  split.
  - apply (path_returns_file_content Sample.sample_platform "sample.jpg");
      [discriminate | reflexivity].
  - apply (path_returns_file_content broken_platform "sample.jpg");
      [discriminate | reflexivity].
Defined.

(** X8: A [file://] URL is read exactly as the [path] descriptor of the path
    [fileURLToPath] converts it to, provided that path is not empty; when
    the conversion itself throws an [Error], that is the load failure and no
    file is read. *)
Theorem file_url_reads_as_path (P : Platform) (u : string) :
  prefix "file://" u = true ->
  (forall filePath, fileURLToPath P u = Return filePath -> filePath <> "" ->
      loadImage P (fromUrl u) = loadImage P (fromPath filePath))
  /\ (forall m, fileURLToPath P u = Throw (ThrownError m) ->
        loadImage P (fromUrl u) = Throw (ThrownError ("Failed to load image: " ++ m))).
Proof.
  intros is_file. unfold loadImage. rewrite (resolve_file_url P u is_file).
  split.
  - intros filePath -> ne. now rewrite (resolve_path P filePath ne).
  - now intros m ->.
Qed.

Lemma file_url_reads_as_path_witness :
  loadImage Sample.sample_platform (fromUrl "file://sample.jpg")
  = loadImage Sample.sample_platform (fromPath "sample.jpg").
Proof.
  apply (file_url_reads_as_path Sample.sample_platform "file://sample.jpg");
    [reflexivity | reflexivity | discriminate].
Defined.

(** X9: Every [Error] that leaves [loadImage] has a message that opens with
    [Failed to load image: ], and [loadImage] throws nothing else of its own:
    a rejection that is not an [Error] is one the platform raised. *)
Theorem loadImage_failures (P : Platform) (src : ImageSourceType) (e : Thrown) :
  loadImage P src = Throw e ->
  match e with
  | ThrownError msg => exists m, msg = "Failed to load image: " ++ m
                                 /\ resolve P src = Throw (ThrownError m)
  | ThrownOther r => platform_throws P (ThrownOther r)
  end.
Proof.
  destruct e as [msg | r].
  - intros H. destruct (loadImage_throw_inv P src msg H) as (m & thrown & ->).
    now exists m.
  - unfold loadImage.
    destruct (resolve P src) as [bytes | [m | r']] eqn:thrown; intros H;
      try discriminate H.
    injection H as ->. revert thrown.
    unfold resolve, required, platform_throws.
    destruct (kind src) as [| | | | name].
    + destruct (path src) as [p |]; [destruct (p =? "")%string |]; cbn [bind];
        intros H; try discriminate H. left. now exists p.
    + destruct (url src) as [u |]; [destruct (u =? "")%string |]; cbn [bind];
        try (intros H; discriminate H).
      destruct (prefix "file://" u).
      * destruct (fileURLToPath P u) as [filePath | e] eqn:conv; cbn [bind];
          intros H.
        -- left. now exists filePath.
        -- injection H as ->. right; left. now exists u.
      * destruct (fetch P u) as [resp | e] eqn:fetched; cbn [bind].
        -- destruct (ok resp); cbn [bind negb]; intros H; [| discriminate H].
           right; right; right. now exists u, resp.
        -- intros H. injection H as ->. right; right; left. now exists u.
    + destruct (data src) as [d |]; [destruct (d =? "")%string |]; cbn [bind];
        try (intros H; discriminate H).
      destruct (size_limit <? Z.of_nat (String.length d))%Z; [intros H; discriminate H |].
      destruct (prefix "data:" d); [destruct (nth_error (split ","%char d) 1) |];
        cbn [Buffer_from_base64]; intros H; discriminate H.
    + destruct (buffer src) as [b |]; [destruct (b =? "")%string |];
        cbn [bind Buffer_from_base64]; intros H; discriminate H.
    + intros H. discriminate H.
Qed.

Lemma loadImage_failures_witness :
  platform_throws broken_platform (ThrownOther "offline").
Proof.
  exact (loadImage_failures broken_platform (fromUrl "https://example.com/a.jpg")
           (ThrownOther "offline") eq_refl).
Defined.

(** X10: Only the tag and the field of that tag matter: two descriptors with the
    same kind and the same value in that kind's field resolve alike, whatever
    their other fields hold. *)
Theorem tag_selects_field (P : Platform) (s1 s2 : ImageSourceType) :
  kind s1 = kind s2 ->
  tag_field s1 = tag_field s2 ->
  loadImage P s1 = loadImage P s2.
Proof.
  destruct s1 as [k1 p1 u1 d1 b1], s2 as [k2 p2 u2 d2 b2].
  unfold tag_field. cbn [kind path url data buffer]. intros <- same.
  unfold loadImage, resolve. cbn [kind path url data buffer].
  destruct k1; subst; reflexivity.
Qed.

Lemma tag_selects_field_witness :
  loadImage Sample.sample_platform
    (mkSource KPath (Some "sample.jpg") (Some "https://example.com/not-found.jpg")
       (Some "AAAA") None)
  = loadImage Sample.sample_platform (fromPath "sample.jpg").
Proof.
  apply tag_selects_field; reflexivity.
Defined.

(** X11: For a URL that is not a [file://] URL, a response that is ok resolves to
    the body [arrayBuffer] gives, whatever its status code and status text. *)
Theorem remote_ok_returns_body (P : Platform) (u : string) (r : Response)
    (body : list byte) :
  u <> "" ->
  prefix "file://" u = false ->
  fetch P u = Return r ->
  ok r = true ->
  arrayBuffer r = Return body ->
  loadImage P (fromUrl u) = Return body.
Proof.
  intros ne remote fetched is_ok has_body. unfold loadImage.
  rewrite (resolve_remote P u r ne remote fetched), is_ok. cbn [negb].
  now rewrite has_body.
Qed.

Lemma remote_ok_returns_body_witness :
  loadImage Sample.sample_platform (fromUrl "https://example.com/image.jpg")
  = Return Sample.sample_bytes.
Proof.
  apply (remote_ok_returns_body Sample.sample_platform
           "https://example.com/image.jpg"
           (mkFetchResponse true 200 "OK" (Return Sample.sample_bytes)));
    try reflexivity. discriminate.
Defined.

(** X12: A string within the size limit that begins with [data:] but holds no
    comma is not decoded at all: [split(',')[1]] is [undefined] and the load
    fails with the [Error] [Buffer.from] raises for it. *)
Theorem data_uri_without_comma_fails (P : Platform) (d : string) :
  (Z.of_nat (String.length d) <= size_limit)%Z ->
  prefix "data:" d = true ->
  after_first ","%char d = None ->
  loadImage P (fromBase64 d)
  = Throw (ThrownError ("Failed to load image: " ++ buffer_from_undefined_message)).
Proof.
  intros within uri none.
  now rewrite (loadImage_base64_data_uri P d within uri), none.
Qed.

Lemma data_uri_without_comma_fails_witness :
  loadImage Sample.sample_platform (fromBase64 "data:image/jpeg;base64")
  = Throw (ThrownError ("Failed to load image: " ++ buffer_from_undefined_message)).
Proof.
  apply data_uri_without_comma_fails; try reflexivity.
  unfold size_limit. simpl. lia.
Defined.

(** X13: The header of a data URI is transparent: for any comma-free header that
    begins with [data:] (no media type or [;base64] marker is looked for) and
    any comma-free payload, within the size limit, the [base64] descriptor of
    header, comma, payload resolves to the decoding of the payload alone,
    which is what the [buffer] descriptor of a non-empty payload gives. *)
Theorem data_uri_header_is_transparent (P : Platform) (header payload : string) :
  prefix "data:" header = true ->
  after_first ","%char header = None ->
  after_first ","%char payload = None ->
  (Z.of_nat (String.length (header ++ "," ++ payload)) <= size_limit)%Z ->
  loadImage P (fromBase64 (header ++ "," ++ payload))
    = Return (base64_decode P payload)
  /\ (payload <> "" ->
      loadImage P (fromBase64 (header ++ "," ++ payload))
      = loadImage P (fromBuffer payload)).
Proof.
  intros uri no_comma plain within.
  assert (decoded : loadImage P (fromBase64 (header ++ "," ++ payload))
                    = Return (base64_decode P payload)).
  { apply (loadImage_base64_data_uri_one_comma P _ payload within).
    - now apply prefix_app.
    - exact (after_first_app ","%char header payload no_comma).
    - exact plain. }
  split; [exact decoded |].
  intros ne. now rewrite decoded, (loadImage_buffer P payload ne).
Qed.

Lemma data_uri_header_is_transparent_witness :
  loadImage Sample.sample_platform (fromBase64 ("data:text/plain" ++ "," ++ "/9j/4A=="))
  = Return Sample.sample_bytes.
Proof.
  refine (proj1 (data_uri_header_is_transparent Sample.sample_platform
                   "data:text/plain" "/9j/4A==" eq_refl eq_refl eq_refl _)).
  unfold size_limit. simpl. lia.
Defined.

(** X14: Within the size limit, a non-empty string that does not begin with
    [data:] is handed whole to the decoder by the [base64] tag, and the
    [buffer] tag resolves it to the same bytes. *)
Theorem raw_base64_decodes_whole_string (P : Platform) (s : string) :
  s <> "" ->
  (Z.of_nat (String.length s) <= size_limit)%Z ->
  prefix "data:" s = false ->
  loadImage P (fromBase64 s) = Return (base64_decode P s)
  /\ loadImage P (fromBuffer s) = loadImage P (fromBase64 s).
Proof.
  intros ne within raw. split.
  - exact (loadImage_base64_raw P s ne within raw).
  - now rewrite (loadImage_buffer P s ne), (loadImage_base64_raw P s ne within raw).
Qed.

Lemma raw_base64_decodes_whole_string_witness :
  loadImage Sample.sample_platform (fromBase64 "/9j/4A==") = Return Sample.sample_bytes.
Proof.
  refine (proj1 (raw_base64_decodes_whole_string Sample.sample_platform
                   "/9j/4A==" _ _ eq_refl));
    [discriminate | unfold size_limit; simpl; lia].
Defined.

(** X15: The [buffer] tag never looks at the string: every non-empty string,
    a data URI included, is handed whole to the decoder, so on a data URI it
    decodes header and payload together where the [base64] tag decodes the
    payload alone. *)
Theorem buffer_decodes_data_uri_whole (P : Platform) (header payload : string) :
  prefix "data:" header = true ->
  loadImage P (fromBuffer (header ++ "," ++ payload))
  = Return (base64_decode P (header ++ "," ++ payload)).
Proof.
  intros uri. apply loadImage_buffer.
  destruct header as [| c header]; [discriminate uri | discriminate].
Qed.

Lemma buffer_decodes_data_uri_whole_witness :
  loadImage Sample.sample_platform (fromBuffer ("data:" ++ "," ++ "AAAA"))
  = Return [x75; xab; x5a; x00; x00; x00].
Proof.
  exact (buffer_decodes_data_uri_whole Sample.sample_platform "data:" "AAAA" eq_refl).
Defined.

End MoreLoaderFacts.

(* ================================================================== *)
(** * Further properties of the tool callbacks *)
(* ================================================================== *)

Section MoreToolFacts.
Import Segments Loaders Tools Outcomes.

(** Unfolds a callback down to the case analysis of its body. *)
Ltac open_callback :=
  unfold call, readMetadataTool, readExifTool, readXmpTool, segmentTool,
    orientationTool, rotationInfoTool, gpsCoordinatesTool, thumbnailTool.

(** What read-metadata and read-exif answer once the image is loaded and
    the parser has resolved. *)
Lemma whole_result_callbacks (W : World) (op : Operation)
    (image : ImageSourceType) (buf : list byte) (meta : JsValue) (message : string) :
  requested_key op = None -> parses op = true ->
  not_found_message op = Some message ->
  loadImage (platform W) image = Return buf ->
  delegated W op buf = Return meta ->
  call W op image
  = if truthy meta
    then match Object_keys_length meta with
         | Return O => createErrorResponse message
         | Return (S _) => createSuccessResponse W meta
         | Throw e => createErrorResponse (error_prefix op ++ error_text e)
         end
    else createErrorResponse message.
Proof.
  intros no_key is_parse msg loaded parsed.
  destruct op; try discriminate no_key; try discriminate is_parse;
    cbn [not_found_message delegated] in *; injection msg as <-;
    open_callback; rewrite loaded; cbn [bind]; rewrite parsed; cbn [bind];
    destruct (truthy meta); cbn [negb]; try reflexivity;
    destruct (Object_keys_length meta) as [[| n] | e]; reflexivity.
Qed.

(** X16: When the image cannot be loaded, every operation answers with the error
    response whose text is its own prefix followed by the loader's message;
    the parser plays no part. *)
Theorem load_failure_reaches_caller (W : World) (op : Operation)
    (image : ImageSourceType) (e : Thrown) :
  loadImage (platform W) image = Throw e ->
  call W op image = createErrorResponse (error_prefix op ++ error_text e).
Proof.
  intros failed. destruct op; open_callback; rewrite failed; reflexivity.
Qed.

Lemma load_failure_reaches_caller_witness :
  call (mkWorld broken_platform (Sample.constant_exifr JNull) Sample.render
          (fun _ => Return ""))
    Orientation (fromPath "sample.jpg")
  = createErrorResponse
      "Error reading orientation: Failed to load image: EACCES: permission denied".
Proof.
  exact (load_failure_reaches_caller
           (mkWorld broken_platform (Sample.constant_exifr JNull) Sample.render
              (fun _ => Return ""))
           Orientation (fromPath "sample.jpg") _ eq_refl).
Defined.

(** X17: When the image loads and the delegated parser call throws, every
    operation answers with the error response whose text is its own prefix
    followed by the parser's message. *)
Theorem parser_failure_reaches_caller (W : World) (op : Operation)
    (image : ImageSourceType) (buf : list byte) (e : Thrown) :
  loadImage (platform W) image = Return buf ->
  delegated W op buf = Throw e ->
  call W op image = createErrorResponse (error_prefix op ++ error_text e).
Proof.
  intros loaded failed.
  destruct op; cbn [delegated] in failed; open_callback; rewrite loaded;
    cbn [bind]; rewrite failed; reflexivity.
Qed.

Lemma parser_failure_reaches_caller_witness :
  call (mkWorld Sample.sample_platform (failing_exifr (ThrownError "Parse error"))
          Sample.render (fun _ => Return ""))
    (ReadSegment SegICC) (fromPath "sample.jpg")
  = createErrorResponse "Error reading ICC data: Parse error".
Proof.
  exact (parser_failure_reaches_caller
           (mkWorld Sample.sample_platform (failing_exifr (ThrownError "Parse error"))
              Sample.render (fun _ => Return ""))
           (ReadSegment SegICC) (fromPath "sample.jpg") Sample.sample_bytes _
           eq_refl eq_refl).
Defined.

(** X18: Whatever happens, a callback returns one [content] entry of type
    [text], and [isError] is either absent or [true]. *)
Theorem response_shape (W : World) (op : Operation) (image : ImageSourceType) :
  exists t : string,
    content (call W op image) = [mkContent "text" t]
    /\ (isError (call W op image) = None \/ isError (call W op image) = Some true).
Proof.
  assert (failure : forall m, exists t : string,
             content (createErrorResponse m) = [mkContent "text" t]
             /\ (isError (createErrorResponse m) = None
                 \/ isError (createErrorResponse m) = Some true)).
  { intros m. exists m. split; [reflexivity | now right]. }
  assert (success : forall d, exists t : string,
             content (createSuccessResponse W d) = [mkContent "text" t]
             /\ (isError (createSuccessResponse W d) = None
                 \/ isError (createSuccessResponse W d) = Some true)).
  { intros d. eexists. split; [reflexivity | now left]. }
  destruct op; open_callback;
    repeat first
      [ apply failure
      | apply success
      | match goal with
        | |- context [bind ?c _] => destruct c; cbn [bind try_catch]
        | |- context [truthy ?v] => destruct (truthy v); cbn [negb]
        | |- context [Nat.eqb ?n 0] => destruct (Nat.eqb n 0)
        | |- context [match ?o with JUndefined => _ | _ => _ end] => destruct o
        | |- context [match ?u with Some _ => _ | None => _ end] =>
            destruct u as [[|] |]; cbn [negb]
        end ].
Qed.

(** X19: The "nothing found" message of an operation opens with [No ] and the
    text of any error its [catch] reports opens with [Error ], so the two
    outcomes are never the same text. *)
Theorem outcomes_distinguishable (op : Operation) (message rest : string) :
  not_found_message op = Some message ->
  prefix "No " message = true
  /\ prefix "Error " (error_prefix op ++ rest) = true
  /\ message <> error_prefix op ++ rest.
Proof.
  intros H.
  assert (no : prefix "No " message = true).
  { destruct op; try discriminate H; injection H as <-; try reflexivity;
      destruct segment; reflexivity. }
  assert (err : prefix "Error " (error_prefix op ++ rest) = true).
  { destruct op; try reflexivity; destruct segment; reflexivity. }
  split; [exact no |]. split; [exact err |].
  intros same. rewrite same in no.
  destruct op; try (destruct segment); discriminate no.
Qed.

Lemma outcomes_distinguishable_witness :
  "No thumbnail found in image" <> "Error extracting thumbnail: " ++ "x".
Proof.
  exact (proj2 (proj2 (outcomes_distinguishable (Thumbnail None)
                         "No thumbnail found in image" "x" eq_refl))).
Defined.

(** X20: read-metadata and read-exif succeed exactly when the parser's result is
    truthy and has at least one key, and the payload is then that result
    itself. *)
Theorem whole_result_succeeds_iff (W : World) (op : Operation)
    (image : ImageSourceType) (buf : list byte) (meta : JsValue) :
  requested_key op = None -> parses op = true ->
  loadImage (platform W) image = Return buf ->
  delegated W op buf = Return meta ->
  (isError (call W op image) = None
   <-> truthy meta = true /\ exists n, Object_keys_length meta = Return (S n))
  /\ (isError (call W op image) = None ->
      call W op image = createSuccessResponse W meta).
Proof.
  intros no_key is_parse loaded parsed.
  assert (has_message : exists m, not_found_message op = Some m).
  { destruct op; try discriminate is_parse; eexists; reflexivity. }
  destruct has_message as [m msg].
  rewrite (whole_result_callbacks W op image buf meta m no_key is_parse msg loaded parsed).
  destruct (truthy meta).
  - destruct (Object_keys_length meta) as [[| n] | e]; cbn [isError createErrorResponse
      createSuccessResponse]; (split; [split |]); try discriminate; try reflexivity.
    + intros [_ [n e]]. discriminate e.
    + intros _. split; [reflexivity | now exists n].
    + intros [_ [n e']]. discriminate e'.
  - cbn. split; [split |]; try discriminate. intros [H _]. discriminate H.
Qed.

Lemma whole_result_succeeds_iff_witness :
  call (Sample.sample_world (JObject [("Make", JString "X")]))
    (ReadExif (Some ["Make"])) (fromPath "sample.jpg")
  = createSuccessResponse (Sample.sample_world (JObject [("Make", JString "X")]))
      (JObject [("Make", JString "X")]).
Proof.
  destruct (whole_result_succeeds_iff
              (Sample.sample_world (JObject [("Make", JString "X")]))
              (ReadExif (Some ["Make"])) (fromPath "sample.jpg")
              Sample.sample_bytes (JObject [("Make", JString "X")])
              eq_refl eq_refl eq_refl eq_refl) as [_ payload].
  apply payload. reflexivity.
Defined.

(** X21: read-xmp and the four single-segment operations look only for
    something truthy under their segment's key, and on success the payload
    is the whole parsed mapping, not the segment's entry alone. *)
Theorem keyed_success_returns_whole_mapping (W : World) (op : Operation)
    (image : ImageSourceType) (buf : list byte) (key : string)
    (props : list (string * JsValue)) :
  requested_key op = Some key ->
  loadImage (platform W) image = Return buf ->
  delegated W op buf = Return (JObject props) ->
  truthy (lookup key props) = true ->
  call W op image = createSuccessResponse W (JObject props).
Proof.
  intros is_key loaded parsed found.
  destruct op; try discriminate is_key; cbn [requested_key delegated] in *;
    injection is_key as <-; open_callback; rewrite loaded; cbn [bind];
    rewrite parsed; cbn [bind truthy negb get]; now rewrite found.
Qed.

Lemma keyed_success_returns_whole_mapping_witness :
  let meta := JObject [("Make", JString "X"); ("icc", JObject [("cmm", JString "appl")])] in
  call (Sample.sample_world meta) (ReadSegment SegICC) (fromPath "sample.jpg")
  = createSuccessResponse (Sample.sample_world meta) meta.
Proof.
  intros meta.
  exact (keyed_success_returns_whole_mapping (Sample.sample_world meta)
           (ReadSegment SegICC) (fromPath "sample.jpg") Sample.sample_bytes "icc"
           _ eq_refl eq_refl eq_refl eq_refl).
Defined.

(** X22: orientation counts every result other than [undefined] as found, falsy
    ones such as [null] or zero included, and wraps it under the key
    [orientation]. *)
Theorem orientation_found_unless_undefined (W : World) (image : ImageSourceType)
    (buf : list byte) (o : JsValue) :
  loadImage (platform W) image = Return buf ->
  orientation (exifr W) buf = Return o ->
  (isError (call W Orientation image) = None <-> o <> JUndefined)
  /\ (o <> JUndefined ->
      call W Orientation image
      = createSuccessResponse W (JObject [("orientation", o)])).
Proof.
  intros loaded parsed. open_callback. rewrite loaded. cbn [bind]. rewrite parsed.
  cbn [bind]. destruct o; cbn; (split; [split |]); intros H;
    try reflexivity; try discriminate; try contradiction.
Qed.

Lemma orientation_found_unless_undefined_witness :
  call (Sample.sample_world JNull) Orientation (fromPath "sample.jpg")
  = createSuccessResponse (Sample.sample_world JNull)
      (JObject [("orientation", JNull)]).
Proof.
  refine (proj2 (orientation_found_unless_undefined (Sample.sample_world JNull)
                   (fromPath "sample.jpg") Sample.sample_bytes JNull eq_refl eq_refl) _).
  discriminate.
Defined.

(** X23: gps-coordinates never reports "nothing found": once the image is loaded
    and the parser has resolved, the response is a success whose payload is
    the parser's result when that is truthy and [null] otherwise. *)
Theorem gps_always_succeeds (W : World) (image : ImageSourceType)
    (buf : list byte) (g : JsValue) :
  loadImage (platform W) image = Return buf ->
  gps (exifr W) buf = Return g ->
  call W GpsCoordinates image
    = createSuccessResponse W (if truthy g then g else JNull)
  /\ isError (call W GpsCoordinates image) = None.
Proof.
  intros loaded parsed. open_callback. rewrite loaded. cbn [bind]. rewrite parsed.
  split; reflexivity.
Qed.

Lemma gps_always_succeeds_witness :
  let g := JObject [("latitude", JNumber (Finite (37 # 1)));
                    ("longitude", JNumber (Finite (-122 # 1)))] in
  call (Sample.sample_world g) GpsCoordinates (fromPath "sample.jpg")
  = createSuccessResponse (Sample.sample_world g) g.
Proof.
  intros g.
  exact (proj1 (gps_always_succeeds (Sample.sample_world g) (fromPath "sample.jpg")
                  Sample.sample_bytes g eq_refl eq_refl)).
Defined.

(** X24: thumbnail: with the [url] flag unset or false the payload is a data URL
    made of the fixed JPEG header and the thumbnail's base64 text, with the
    flag true it is that text alone; and the data URL is one [loadImage]
    takes back, resolving to the decoding of that text, when the text holds
    no comma and the URL is within the size limit. *)
Theorem thumbnail_data_url_loads_back (W : World) (image : ImageSourceType)
    (buf : list byte) (t : JsValue) (b : string) :
  loadImage (platform W) image = Return buf ->
  thumbnail (exifr W) buf = Return t ->
  truthy t = true ->
  to_base64 W t = Return b ->
  let dataUrl := "data:image/jpeg;base64," ++ b in
  call W (Thumbnail None) image
    = createSuccessResponse W (JObject [("dataUrl", JString dataUrl)])
  /\ call W (Thumbnail (Some false)) image = call W (Thumbnail None) image
  /\ call W (Thumbnail (Some true)) image
     = createSuccessResponse W (JObject [("base64", JString b)])
  /\ (after_first ","%char b = None ->
      (Z.of_nat (String.length dataUrl) <= size_limit)%Z ->
      loadImage (platform W) (fromBase64 dataUrl)
      = Return (base64_decode (platform W) b)).
Proof.
  intros loaded parsed found encoded dataUrl.
  split; [| split; [| split]].
  - open_callback. rewrite loaded. cbn [bind]. rewrite parsed. cbn [bind].
    rewrite found. cbn [negb]. now rewrite encoded.
  - open_callback. reflexivity.
  - open_callback. rewrite loaded. cbn [bind]. rewrite parsed. cbn [bind].
    rewrite found. cbn [negb]. now rewrite encoded.
  - intros plain within.
    apply (loadImage_base64_data_uri_one_comma (platform W) dataUrl b within);
      [reflexivity | reflexivity | exact plain].
Qed.

Lemma thumbnail_data_url_loads_back_witness :
  let W := mkWorld Sample.sample_platform (Sample.constant_exifr (JBytes [xff; xd8]))
             Sample.render (fun _ => Return "/9g=") in
  call W (Thumbnail None) (fromPath "sample.jpg")
    = createSuccessResponse W
        (JObject [("dataUrl", JString "data:image/jpeg;base64,/9g=")])
  /\ loadImage (platform W) (fromBase64 "data:image/jpeg;base64,/9g=")
     = Return [xff; xd8].
Proof.
  intros W.
  destruct (thumbnail_data_url_loads_back W (fromPath "sample.jpg")
              Sample.sample_bytes (JBytes [xff; xd8]) "/9g="
              eq_refl eq_refl eq_refl eq_refl) as (shown & _ & _ & back).
  split; [exact shown |].
  apply back; [reflexivity | unfold size_limit; simpl; lia].
Defined.

(** X25: The order and repetition of the requested segments never change what
    read-metadata answers, and neither does leaving the list out instead of
    passing it empty. *)
Theorem read_metadata_ignores_order (W : World) (image : ImageSourceType)
    (l l' : list SegmentType) :
  (forall s, In s l <-> In s l') ->
  call W (ReadMetadata (Some l)) image = call W (ReadMetadata (Some l')) image
  /\ call W (ReadMetadata (Some [])) image = call W (ReadMetadata None) image.
Proof.
  intros same. split; [| reflexivity].
  open_callback. now rewrite (buildOptions_same_members l l' same).
Qed.

Lemma read_metadata_ignores_order_witness :
  call (Sample.sample_world JNull) (ReadMetadata (Some [GPS; XMP; GPS]))
    (fromPath "sample.jpg")
  = call (Sample.sample_world JNull) (ReadMetadata (Some [XMP; GPS]))
      (fromPath "sample.jpg").
Proof.
  apply (read_metadata_ignores_order (Sample.sample_world JNull)
           (fromPath "sample.jpg") [GPS; XMP; GPS] [XMP; GPS]).
  intros s; simpl; tauto.
Defined.

End MoreToolFacts.
